(** * Marketing funnel dashboard: data generation, metrics and view state

    A shallow embedding of [marketing_dashboard.py].

    - Python integers are [Z] (unbounded).
    - A Python or NumPy float is the rational it denotes.  Every
      floating-point operation is the exact operation followed by a rounding
      operator [rnd : Q -> Q]; the development is parametric in [rnd], so a
      result holds for every rounding that meets the hypotheses it names.
      [binary64], round-to-nearest-even on significands of 53 bits, is such
      a rounding ([binary64_rounding_ok]) and is the one the concrete
      evaluations use.  The literals [0.0], [1.0] and [100.0] are exact in
      binary floating point and are written as such; every other decimal
      literal is the rounding of its decimal value.  Overflow, underflow and
      the sign of zero are not modelled for sums and products; division, the
      one place where the source guards against a non-finite result, has
      the full case split.
    - [numpy.random.default_rng] is an abstract deterministic generator,
      threaded explicitly: a draw returns the value and the next state.
    - The wall clock ([datetime.now()]) and the per-process string hash
      ([hash]) are explicit inputs. *)

From Stdlib Require Import ZArith QArith Qround Qminmax Qabs Qpower Lia Lqa.
From Stdlib Require Import String Ascii List DecimalString.
From stdpp Require Import gmap strings list fin_maps.

Local Open Scope string_scope.
Local Open Scope Z_scope.

(** ** Exceptions *)

Inductive exn : Type :=
| ValueError
| IndexError
| KeyError
| ZeroDivisionError.

Inductive result (A : Type) : Type :=
| Ok (a : A)
| Raise (e : exn).

Arguments Ok {A} a.
Arguments Raise {A} e.

Definition rbind {A B : Type} (r : result A) (k : A -> result B) : result B :=
  match r with
  | Ok a => k a
  | Raise e => Raise e
  end.

Notation "'try' x ':=' r 'in' k" := (rbind r (fun x => k))
  (at level 10, x name, r at level 100, k at level 200).

Fixpoint rmap {A B : Type} (f : A -> result B) (l : list A) : result (list B) :=
  match l with
  | [] => Ok []
  | a :: l' => try b := f a in try bs := rmap f l' in Ok (b :: bs)
  end.

(** ** NumPy float scalars

    A NumPy division does not raise on a zero divisor: it yields an infinity
    or NaN.  Finite values carry the rational they denote. *)

Inductive float64 : Type :=
| Finite (q : Q)
| Infinity (negative : bool)
| NaN.


(** [int(x)] and [ndarray.astype(int)]: truncation toward zero. *)
Definition trunc (q : Q) : Z := Z.quot (Qnum q) (Zpos (Qden q)).

(** [np.clip(x, lo, hi)] is [minimum(maximum(x, lo), hi)]. *)
Definition clip (x lo hi : Q) : Q := Qmin (Qmax x lo) hi.

(** Round half to even, the rule of both IEEE-754 rounding and of Python's
    fixed-point formatting. *)
Definition round_half_even (q : Q) : Z :=
  let f := Qfloor q in
  match Qcompare (q - inject_Z f) (1 # 2) with
  | Lt => f
  | Gt => f + 1
  | Eq => if Z.even f then f else f + 1
  end.

(** Binary64 round-to-nearest-even with an unbounded exponent range.  For a
    positive [a], [b64_exponent] is the [e] with
    [2 ^ 52 <= a * 2 ^ (- e) < 2 ^ 53], so that the significand is an integer
    of 53 bits; [b64_magnitude] rounds that significand half to even. *)
Definition b64_exponent (a : Q) : Z :=
  let e0 := Z.log2 (Qnum a) - Z.log2 (Zpos (Qden a)) - 52 in
  if Qle_bool (2 ^ 52) (a * 2 ^ (- e0)) then e0 else e0 - 1.

Definition b64_magnitude (a : Q) : Q :=
  let e := b64_exponent a in
  (inject_Z (round_half_even (a * 2 ^ (- e))) * 2 ^ e)%Q.

Definition binary64 (q : Q) : Q :=
  match Qnum q with
  | 0 => 0%Q
  | _ =>
    Qred (if Qle_bool 0 q then b64_magnitude (Qabs q)
          else - b64_magnitude (Qabs q))
  end.

(** The binade of a positive rational: [2 ^ (52 + e) <= a < 2 ^ (53 + e)]. *)
Definition in_binade (a : Q) (e : Z) : Prop :=
  (2 ^ 52 * 2 ^ e <= a)%Q /\ (a < 2 ^ 53 * 2 ^ e)%Q.

(** What the bounds below need of a rounding operator: it is monotone, it
    leaves integers of at most 53 bits alone, and on small values it is
    close to the identity.  [binary64] meets all three. *)
Record rounding_ok (rnd : Q -> Q) : Prop := {
  rnd_mono : forall x y : Q, (x <= y)%Q -> (rnd x <= rnd y)%Q;
  rnd_int : forall z : Z, Z.abs z <= 2 ^ 53 -> (rnd (inject_Z z) == inject_Z z)%Q;
  rnd_near : forall x : Q, (-4 <= x <= 4)%Q ->
             (- (1 # 1000000) <= rnd x - x <= 1 # 1000000)%Q
}.

(** ** The funnel's monotone clamp

    [for k in range(1, len(counts)): counts[k] = min(counts[k], counts[k-1])]
    on a list updated in place.  Both lookups are in range for every [k] the
    loop visits. *)

Definition clamp_at (counts : list Z) (k : nat) : list Z :=
  match counts !! k, counts !! (k - 1)%nat with
  | Some c, Some p => <[k := Z.min c p]> counts
  | _, _ => counts
  end.

Definition monotone_clamp (counts : list Z) : list Z :=
  foldl clamp_at counts (seq 1 (length counts - 1)).

(** The same pass as a recursion carrying the previous (already clamped)
    element. *)
Fixpoint running_min (prev : Z) (l : list Z) : list Z :=
  match l with
  | [] => []
  | c :: l' => let c' := Z.min c prev in c' :: running_min c' l'
  end.

Definition clamped (l : list Z) : list Z :=
  match l with
  | [] => []
  | c :: l' => c :: running_min c l'
  end.

(** A count sequence is non-increasing: [count[i] >= count[i+1]]. *)
Definition non_increasing (l : list Z) : Prop :=
  forall (i : nat) (a b : Z), l !! i = Some a -> l !! S i = Some b -> a >= b.

Fixpoint non_increasingb (l : list Z) : bool :=
  match l with
  | a :: (b :: _) as l' => (b <=? a) && non_increasingb l'
  | _ => true
  end.

(** ** Text: integers, fixed-point floats, separators *)

(** [str(n)] for an integer. *)
Definition str (n : Z) : string := NilZero.string_of_int (Z.to_int n).

Definition digit_char (d : Z) : ascii := ascii_of_nat (48 + Z.to_nat d).

(** The [k] low decimal digits of [r], most significant first (zero padded). *)
Fixpoint frac_digits (k : nat) (r : Z) : string :=
  match k with
  | O => ""
  | S k' => String (digit_char ((r / 10 ^ Z.of_nat k') mod 10)) (frac_digits k' r)
  end.

(** [f"{x:.kf}"]: the sign, then the magnitude rounded half-to-even to [k]
    decimals, always with exactly [k] digits after the point. *)
Definition fmt_fixed (k : nat) (x : Q) : string :=
  let scale := 10 ^ Z.of_nat k in
  let m := round_half_even (Qabs x * inject_Z scale) in
  (if Qle_bool 0 x then "" else "-")
  ++ str (m / scale)
  ++ match k with O => "" | _ => "." ++ frac_digits k (m mod scale) end.

(** Formatting of a NumPy scalar that may be non-finite. *)
Definition fmt_fixed64 (k : nat) (x : float64) : string :=
  match x with
  | Finite q => fmt_fixed k q
  | Infinity false => "inf"
  | Infinity true => "-inf"
  | NaN => "nan"
  end.

Fixpoint group_thousands (fuel : nat) (n : Z) : string :=
  match fuel with
  | O => str n
  | S fuel' =>
    if n <? 1000 then str n
    else group_thousands fuel' (n / 1000) ++ "," ++ frac_digits 3 (n mod 1000)
  end.

(** [f"{n:,}"]: groups of three digits separated by commas. *)
Definition fmt_thousands (n : Z) : string :=
  (if n <? 0 then "-" else "")
  ++ group_thousands (Z.to_nat (Z.log2 (Z.abs n))) (Z.abs n).

(** ** Text: [in] and [split] *)

Fixpoint str_contains (sep s : string) : bool :=
  String.prefix sep s
  || match s with
     | EmptyString => false
     | String _ s' => str_contains sep s'
     end.

(** [s.split(sep)] for a non-empty [sep]: [skip] counts the characters of a
    matched separator still to pass, [cur] is the piece being read. *)
Fixpoint split_aux (sep : string) (skip : nat) (cur s : string) : list string :=
  match s with
  | EmptyString => [cur]
  | String c s' =>
    match skip with
    | S n => split_aux sep n cur s'
    | O =>
      if String.prefix sep s
      then cur :: split_aux sep (String.length sep - 1) "" s'
      else split_aux sep 0 (cur ++ String c "") s'
    end
  end.

Definition py_split (sep s : string) : list string := split_aux sep 0 "" s.

(** [l[i]] on a list: [IndexError] out of range. *)
Definition index {A : Type} (l : list A) (i : nat) : result A :=
  match l !! i with
  | Some a => Ok a
  | None => Raise IndexError
  end.

(** ** Calendar months *)

Record date : Type := mkdate { dt_year : Z; dt_month : Z; dt_day : Z }.

Definition replace_day (d : date) (day : Z) : date :=
  {| dt_year := dt_year d; dt_month := dt_month d; dt_day := day |}.

(** Months since year 0, the quantity [DateOffset(months=k)] shifts. *)
Definition month_ordinal (d : date) : Z := dt_year d * 12 + (dt_month d - 1).

(** [d - pd.DateOffset(months=k)] for a first-of-month [d]: day 1 exists in
    every month, so only the year and the month move. *)
Definition sub_months (d : date) (k : Z) : date :=
  let o := month_ordinal d - k in
  {| dt_year := o / 12; dt_month := o mod 12 + 1; dt_day := dt_day d |}.

(** [strftime("%Y-%m")]. *)
Definition strftime_Ym (d : date) : string :=
  frac_digits 4 (dt_year d) ++ "-" ++ frac_digits 2 (dt_month d).

(** ** Constants *)

Definition STAGES : list string :=
  ["Impression"; "Click"; "Lead"; "MQL"; "SQL"; "Won"].

Definition EMPLOYEES : list string :=
  ["All"; "Sofía"; "Mateo"; "Valentina"; "Juan"].

(** The six identifiers of the KPI cards. *)
Definition KPI_IDS : list string :=
  ["impressions"; "ctr"; "click_to_lead"; "lead_to_mql"; "mql_to_sql"; "sql_to_won"].

(** ** Rows of the monthly history: one dict per month in the source *)

Record MonthlyKpiRow : Type := {
  month : string;
  impressions : Z;
  clicks : Z;
  leads : Z;
  mql : Z;
  sql : Z;
  won : Z;
  ctr : float64;
  click_to_lead : float64;
  lead_to_mql : float64;
  mql_to_sql : float64;
  sql_to_won : float64
}.

Definition stage_counts (r : MonthlyKpiRow) : list Z :=
  [impressions r; clicks r; leads r; mql r; sql r; won r].

Definition percentages (r : MonthlyKpiRow) : list float64 :=
  [ctr r; click_to_lead r; lead_to_mql r; mql_to_sql r; sql_to_won r].

(** A cell of the data frame. *)
Inductive cell : Type :=
| CStr (s : string)
| CInt (n : Z)
| CFloat (x : float64).

(** [df[col]] read row by row: [KeyError] for a column that does not exist. *)
Definition column (col : string) (r : MonthlyKpiRow) : result cell :=
  if String.eqb col "month" then Ok (CStr (month r))
  else if String.eqb col "impressions" then Ok (CInt (impressions r))
  else if String.eqb col "clicks" then Ok (CInt (clicks r))
  else if String.eqb col "leads" then Ok (CInt (leads r))
  else if String.eqb col "mql" then Ok (CInt (mql r))
  else if String.eqb col "sql" then Ok (CInt (sql r))
  else if String.eqb col "won" then Ok (CInt (won r))
  else if String.eqb col "ctr" then Ok (CFloat (ctr r))
  else if String.eqb col "click_to_lead" then Ok (CFloat (click_to_lead r))
  else if String.eqb col "lead_to_mql" then Ok (CFloat (lead_to_mql r))
  else if String.eqb col "mql_to_sql" then Ok (CFloat (mql_to_sql r))
  else if String.eqb col "sql_to_won" then Ok (CFloat (sql_to_won r))
  else Raise KeyError.

(** ** View state: the dropdown, the store and the tabs *)

Record ViewState : Type := {
  employee : string;      (* Dropdown "employee", property value *)
  selected_kpi : string;  (* Store "selected-kpi", property data *)
  tabs : string           (* Tabs "tabs", property value *)
}.

Definition initial_state : ViewState :=
  {| employee := "All"; selected_kpi := "impressions"; tabs := "tab-overview" |}.

Inductive Event : Type :=
| SelectEmployee (e : string)
| SelectTab (t : string)
| ClickKpi (triggered : list string).

Definition dquote : string := String "034"%char "".

(** The text [kpi_click] looks for in a [prop_id]. *)
Definition KPI_MARK : string := dquote ++ "kpi" ++ dquote ++ ":" ++ dquote.

(** The [prop_id] Dash reports for a click on the card whose id is
    [{"type": "kpi", "kpi": k}]: the id as JSON with sorted keys and no
    spaces, then the property. *)
Definition card_prop_id (k : string) : string :=
  "{" ++ KPI_MARK ++ k ++ dquote ++ "," ++ dquote ++ "type" ++ dquote ++ ":"
  ++ dquote ++ "kpi" ++ dquote ++ "}.n_clicks".

(** [kpi_click]: the two values it returns are the two outputs of the one
    callback, the store's data and the tabs' value. *)
Definition kpi_click (triggered : list string) : result (string * string) :=
  match triggered with
  | [] => Ok ("impressions", "tab-overview")
  | prop_id :: _ =>
    if str_contains KPI_MARK prop_id then
      try rest := index (py_split KPI_MARK prop_id) 1 in
      try kpi := index (py_split dquote rest) 0 in
      Ok (kpi, "tab-details")
    else Ok ("impressions", "tab-details")
  end.

(** One user action.  The dropdown and the tabs write their own property;
    a card click runs [kpi_click] and writes both of its outputs at once. *)
Definition step (s : ViewState) (ev : Event) : result ViewState :=
  match ev with
  | SelectEmployee e =>
    Ok {| employee := e; selected_kpi := selected_kpi s; tabs := tabs s |}
  | SelectTab t =>
    Ok {| employee := employee s; selected_kpi := selected_kpi s; tabs := t |}
  | ClickKpi triggered =>
    try out := kpi_click triggered in
    Ok {| employee := employee s; selected_kpi := fst out; tabs := snd out |}
  end.

Fixpoint run (s : ViewState) (evs : list Event) : result ViewState :=
  match evs with
  | [] => Ok s
  | ev :: evs' => try s' := step s ev in run s' evs'
  end.

(** [toggle_views]: which of the two views is displayed. *)
Definition toggle_views (tab : string) : bool * bool :=
  if String.eqb tab "tab-details" then (false, true) else (true, false).

(** ** Selection by key: [min(keys, key=f)] and [max(keys, key=f)]

    Both keep the first element among equals: the running choice changes only
    on a strictly smaller (larger) key. *)

Definition Qltb (x y : Q) : bool := negb (Qle_bool y x).

Fixpoint min_from {A : Type} (key : A -> Q) (best : A) (l : list A) : A :=
  match l with
  | [] => best
  | x :: l' => min_from key (if Qltb (key x) (key best) then x else best) l'
  end.

Fixpoint max_from {A : Type} (key : A -> Q) (best : A) (l : list A) : A :=
  match l with
  | [] => best
  | x :: l' => max_from key (if Qltb (key best) (key x) then x else best) l'
  end.

Definition py_min {A : Type} (l : list A) (key : A -> Q) : result A :=
  match l with
  | [] => Raise ValueError
  | x :: l' => Ok (min_from key x l')
  end.

Definition py_max {A : Type} (l : list A) (key : A -> Q) : result A :=
  match l with
  | [] => Raise ValueError
  | x :: l' => Ok (max_from key x l')
  end.

(** An insertion-ordered dict with string keys. *)
Fixpoint assoc {A : Type} (d : list (string * A)) (k : string) : option A :=
  match d with
  | [] => None
  | (k', v) :: d' => if String.eqb k k' then Some v else assoc d' k
  end.

(** [rankKpis]: the worst and the best key of a rate dict, as
    [update_overview] selects them. *)
Definition rank_kpis (rates : list (string * Q)) : result (string * string) :=
  let rate := fun k => default 0%Q (assoc rates k) in
  try worst := py_min (map fst rates) rate in
  try best := py_max (map fst rates) rate in
  Ok (best, worst).

(** ** What the two rendering callbacks return *)

(** The bar chart: [x], [y] and the text of each bar. *)
Record FunnelFigure : Type := {
  bar_x : list Z;
  bar_y : list string;
  bar_text : list string
}.

(** A KPI card: the identifier of its button, its title and its value. *)
Record KpiCard : Type := {
  card_id : string;
  card_title : string;
  card_value : string
}.

Record Overview : Type := {
  ov_figure : FunnelFigure;
  ov_cards : list KpiCard;
  ov_worst : string;
  ov_best : string;
  ov_insights : list string
}.

(** The trend chart: its title, the months and the plotted column. *)
Record TrendFigure : Type := {
  trend_title : string;
  trend_x : list string;
  trend_y : list cell
}.

Record Details : Type := {
  det_figure : TrendFigure;
  det_text : string;
  det_head : list string;
  det_rows : list (string * string)
}.

Definition dict_getitem {A : Type} (d : gmap string A) (k : string) : result A :=
  match d !! k with
  | Some a => Ok a
  | None => Raise KeyError
  end.

Definition dict_get {A : Type} (d : gmap string A) (k : string) (dflt : A) : A :=
  default dflt (d !! k).

(** The local dict [meta] of [render_details]: title, column, explanation. *)
Definition meta : gmap string (string * string * string) :=
  list_to_map
    [("impressions", ("Impressions", "impressions", "Total de impresiones por mes."));
     ("ctr", ("CTR", "ctr", "Clicks / Impressions (%)."));
     ("click_to_lead", ("Click → Lead", "click_to_lead", "Leads / Clicks (%)."));
     ("lead_to_mql", ("Lead → MQL", "lead_to_mql", "MQL / Leads (%)."));
     ("mql_to_sql", ("MQL → SQL", "mql_to_sql", "SQL / MQL (%)."));
     ("sql_to_won", ("SQL → Won", "sql_to_won", "Won / SQL (%)."))].

Definition COUNT_COLUMNS : list string :=
  ["impressions"; "clicks"; "leads"; "mql"; "sql"; "won"].

Definition str_in (s : string) (l : list string) : bool :=
  existsb (String.eqb s) l.

(** Whether the character [c] occurs in [s]. *)
Fixpoint has_char (c : ascii) (s : string) : bool :=
  match s with
  | EmptyString => false
  | String c' s' => Ascii.eqb c c' || has_char c s'
  end.

(** The dict [KPI_HELP]: the help text of a card, by the card's title. *)
Definition KPI_HELP : gmap string string :=
  list_to_map
    [("Impressions",
      "Total de veces que se mostró el anuncio/contenido. Base del funnel.");
     ("CTR",
      "Click-Through Rate = Clicks / Impressions. Mide atractivo del creativo/copy.");
     ("Click → Lead",
      "Leads / Clicks. Mide landing + fricción del formulario + oferta.");
     ("Lead → MQL",
      "MQL / Leads. Mide calidad del lead y el scoring de marketing.");
     ("MQL → SQL",
      "SQL / MQL. Mide alineación marketing–ventas y proceso de calificación.");
     ("SQL → Won", "Won / SQL. Mide cierre final del pipeline comercial.")].

(** The text [kpi_card] hands to [help_icon]:
    [KPI_HELP.get(title, "KPI del dashboard.")]. *)
Definition kpi_card_help (title : string) : string :=
  dict_get KPI_HELP title "KPI del dashboard.".

(** The characters a JSON string holds as they are: printable ASCII other
    than the double quote and the backslash.  The [prop_id] of a card whose
    identifier is made of them contains the identifier unchanged. *)
Definition json_plain_char (c : ascii) : bool :=
  let n := nat_of_ascii c in
  Nat.leb 32 n && Nat.ltb n 127 && negb (Nat.eqb n 34) && negb (Nat.eqb n 92).

Fixpoint json_plain (s : string) : bool :=
  match s with
  | EmptyString => true
  | String c s' => json_plain_char c && json_plain s'
  end.

(** The dict [rates] of [update_overview] for five given rates: its keys
    are the titles of the five rate cards, in this order. *)
Definition overview_rates (r1 r2 r3 r4 r5 : Q) : list (string * Q) :=
  [("CTR", r1); ("Click → Lead", r2); ("Lead → MQL", r3);
   ("MQL → SQL", r4); ("SQL → Won", r5)].

(** ** A concrete runtime to evaluate the program on

    A small linear congruential generator stands for the seeded generator,
    and the length of a string for its hash. *)

Definition lcg_next (s : N) : N := ((s * 1103515245 + 12345) mod 2 ^ 31)%N.

Definition lcg_seed (seed : N) : N := lcg_next seed.

Definition lcg_integers (s : N) (lo hi : Z) : Z * N :=
  (lo + Z.of_N s mod (hi - lo), lcg_next s).

Definition lcg_normal (s : N) (mu sigma : Q) : Q * N :=
  ((mu + sigma * ((Z.of_N (s mod 9) - 4) # 2))%Q, lcg_next s).

Definition length_hash (s : string) : Z := Z.of_nat (String.length s).

(** ** The program proper, over a rounding, a generator and a string hash *)

Section Dashboard.

Variable rnd : Q -> Q.

(** [np.random.default_rng(seed)] and the two draws the program uses.
    NumPy accepts non-negative seeds only. *)
Variable Generator : Type.
Variable default_rng : N -> Generator.
Variable integers : Generator -> Z -> Z -> Z * Generator.
Variable normal : Generator -> Q -> Q -> Q * Generator.

(** Python's [hash] on strings. *)
Variable hash : string -> Z.

(** *** Floating-point operations *)

Definition lit (q : Q) : Q := rnd q.
Definition of_int (z : Z) : Q := rnd (inject_Z z).
Definition fadd (x y : Q) : Q := rnd (x + y).
Definition fmul (x y : Q) : Q := rnd (x * y).
Definition fdiv (x y : Q) : Q := rnd (x / y).

(** Python's [n / d] on integers with [d] non-zero: the quotient, rounded
    once. *)
Definition int_truediv (n d : Z) : Q := rnd (inject_Z n / inject_Z d).

Definition py_truediv (n d : Z) : result Q :=
  if d =? 0 then Raise ZeroDivisionError else Ok (int_truediv n d).

(** NumPy's [n / d] on two int64 scalars: both become floats, and a zero
    divisor gives NaN or an infinity. *)
Definition np_true_divide (n d : Z) : float64 :=
  if d =? 0 then (if n =? 0 then NaN else Infinity (n <? 0))
  else Finite (fdiv (of_int n) (of_int d)).

(** A NumPy float times a Python float. *)
Definition f64_mul (x : float64) (c : Q) : float64 :=
  match x with
  | Finite q => Finite (fmul q c)
  | Infinity s =>
    if Qeq_bool c 0 then NaN else Infinity (xorb s (negb (Qle_bool 0 c)))
  | NaN => NaN
  end.

(** *** Dummy data *)

Definition _rng (seed : N) : Generator := default_rng seed.

Definition make_dummy_funnel (seed : N) : list Z :=
  let rng := _rng seed in
  let '(n, rng) := integers rng 1800000 2500000 in
  let base := n in
  let '(x, rng) := normal rng (lit 0.018) (lit 0.006) in
  let ctr := clip x (lit 0.006) (lit 0.06) in
  let click := trunc (fmul (of_int base) ctr) in
  let '(x, rng) := normal rng (lit 0.07) (lit 0.02) in
  let click_to_lead := clip x (lit 0.02) (lit 0.22) in
  let lead := trunc (fmul (of_int click) click_to_lead) in
  let '(x, rng) := normal rng (lit 0.45) (lit 0.12) in
  let lead_to_mql := clip x (lit 0.10) (lit 0.85) in
  let mql := trunc (fmul (of_int lead) lead_to_mql) in
  let '(x, rng) := normal rng (lit 0.35) (lit 0.10) in
  let mql_to_sql := clip x (lit 0.08) (lit 0.80) in
  let sql := trunc (fmul (of_int mql) mql_to_sql) in
  let '(x, rng) := normal rng (lit 0.18) (lit 0.07) in
  let sql_to_won := clip x (lit 0.02) (lit 0.55) in
  let won := trunc (fmul (of_int sql) sql_to_won) in
  let click := Z.min click base in
  let lead := Z.min lead click in
  let mql := Z.min mql lead in
  let sql := Z.min sql mql in
  let won := Z.min won sql in
  [base; click; lead; mql; sql; won].

(** [weights = np.array([0.28, 0.25, 0.25, 0.22])], then
    [weights / weights.sum()]. *)
Definition weights : list Q :=
  let w := [lit 0.28; lit 0.25; lit 0.25; lit 0.22] in
  let total :=
    match w with
    | [] => 0%Q
    | w0 :: ws => foldl fadd w0 ws
    end in
  map (fun x => fdiv x total) w.

Definition emps : list string := ["Sofía"; "Mateo"; "Valentina"; "Juan"].

(** [[int(c * factor) for c in all_counts]] followed by the clamp. *)
Definition employee_counts (all_counts : list Z) (factor : Q) : list Z :=
  monotone_clamp (map (fun c => trunc (fmul (of_int c) factor)) all_counts).

(** One turn of the first loop: a draw, the scaled and clamped counts, the
    dict entry. *)
Definition split_step (all_counts : list Z)
    (st : gmap string (list Z) * Generator) (ie : nat * string)
    : gmap string (list Z) * Generator :=
  let '(per_emp, rng) := st in
  let '(i, e) := ie in
  let '(x, rng) := normal rng 1 (lit 0.08) in
  let factor := fmul (nth i weights 0%Q) (clip x (lit 0.85) (lit 1.15)) in
  (<[e := employee_counts all_counts factor]> per_emp, rng).

(** [summed[i] += per_emp[e][i]]. *)
Definition add_at (per_emp : gmap string (list Z)) (e : string)
    (summed : list Z) (i : nat) : list Z :=
  <[i := (summed !!! i) + ((per_emp !!! e) !!! i)]> summed.

Definition sum_employees (per_emp : gmap string (list Z)) (n : nat) : list Z :=
  foldl (fun summed e => foldl (add_at per_emp e) summed (seq 0 n))
        (replicate n 0) emps.

Definition split_by_employees (all_counts : list Z) (seed : N)
    : gmap string (list Z) :=
  let rng := _rng seed in
  let '(per_emp, _) :=
    foldl (split_step all_counts) (∅, rng)
          (zip (seq 0 (length emps)) emps) in
  let summed := sum_employees per_emp (length all_counts) in
  <["All" := summed]> per_emp.

(** The dict after the first loop. *)
Definition named_entries (base : list Z) (f1 f2 f3 f4 : Q)
    : gmap string (list Z) :=
  <["Juan" := employee_counts base f4]>
    (<["Valentina" := employee_counts base f3]>
      (<["Mateo" := employee_counts base f2]>
        (<["Sofía" := employee_counts base f1]> ∅))).

(** [safe_pct], local to the loop of [make_3_months_kpis]; its operands
    are NumPy integers. *)
Definition safe_pct (num den : Z) : float64 :=
  if negb (den =? 0) then f64_mul (np_true_divide num den) 100 else Finite 0.

(** The multiplier of month [idx] for a drawn noise [x]:
    [0.90 + 0.06 * idx + float(np.clip(x, -0.05, 0.05))], the sum of the
    base [0.90 + 0.06 * idx] and the clamped noise. *)
Definition drift_base (idx : nat) : Q :=
  fadd (lit 0.90) (fmul (lit 0.06) (of_int (Z.of_nat idx))).

Definition month_drift (idx : nat) (x : Q) : Q :=
  fadd (drift_base idx) (clip x (- lit 0.05) (lit 0.05)).

(** [(base * drift).astype(int)] followed by the clamp. *)
Definition month_vals (base : list Q) (drift : Q) : list Z :=
  monotone_clamp (map (fun b => trunc (fmul b drift)) base).

(** The unpacking [imp, clk, lead, mql, sql, won = vals] and the row. *)
Definition month_row (m : string) (vals : list Z) : result MonthlyKpiRow :=
  match vals with
  | [imp; clk; lead; mql; sql; won] =>
    Ok {| month := m;
          impressions := imp; clicks := clk; leads := lead;
          mql := mql; sql := sql; won := won;
          ctr := safe_pct clk imp;
          click_to_lead := safe_pct lead clk;
          lead_to_mql := safe_pct mql lead;
          mql_to_sql := safe_pct sql mql;
          sql_to_won := safe_pct won sql |}
  | _ => Raise ValueError
  end.

(** The loop over [enumerate(months)]: one draw per month. *)
Fixpoint month_rows (base : list Q) (rng : Generator)
    (months : list (nat * string)) : result (list MonthlyKpiRow) :=
  match months with
  | [] => Ok []
  | (idx, m) :: months' =>
    let '(x, rng) := normal rng 0 (lit 0.03) in
    let drift := month_drift idx x in
    try row := month_row m (month_vals base drift) in
    try rows := month_rows base rng months' in
    Ok (row :: rows)
  end.

(** The three month labels, from the clock. *)
Definition month_labels (now : date) : list string :=
  let end_ := replace_day now 1 in
  [strftime_Ym (sub_months end_ 2);
   strftime_Ym (sub_months end_ 1);
   strftime_Ym (sub_months end_ 0)].

(** The three months of the history, oldest first. *)
Definition history_months (now : date) : list date :=
  let end_ := replace_day now 1 in
  [sub_months end_ 2; sub_months end_ 1; sub_months end_ 0].

Definition make_3_months_kpis (now : date) (counts_now : list Z) (seed : N)
    : result (list MonthlyKpiRow) :=
  let rng := _rng seed in
  let months := month_labels now in
  let base := map of_int counts_now in
  month_rows base rng (zip (seq 0 (length months)) months).

(** The noise drawn for month [idx]: the [idx]-th draw of the seeded
    generator. *)
Fixpoint nth_noise (rng : Generator) (idx : nat) : Q :=
  let '(x, rng') := normal rng 0 (lit 0.03) in
  match idx with
  | O => x
  | S idx' => nth_noise rng' idx'
  end.

(** The multiplier [make_3_months_kpis] applies at month [idx]. *)
Definition drift_at (seed : N) (idx : nat) : Q :=
  month_drift idx (nth_noise (_rng seed) idx).

Definition BASE_COUNTS : list Z := make_dummy_funnel 11.
Definition DATA_BY_EMP : gmap string (list Z) :=
  split_by_employees BASE_COUNTS 11.

(** *** Formatters *)

Definition fmt_int (n : Z) : string :=
  if 1000000 <=? n then fmt_fixed 2 (int_truediv n 1000000) ++ "M"
  else if 1000 <=? n then fmt_fixed 1 (int_truediv n 1000) ++ "K"
  else str n.

Definition pct_prev (curr prev : Z) : result Q :=
  if negb (prev =? 0)
  then try q := py_truediv curr prev in Ok (fmul q 100)
  else Ok 0%Q.

Definition pct_prev_str (curr prev : Z) : result string :=
  try p := pct_prev curr prev in Ok (fmt_fixed 2 p ++ "%").

(** *** Figures *)

Definition bar_label (counts : list Z) (ic : nat * Z) : result string :=
  let '(i, c) := ic in
  match i with
  | O => Ok (fmt_int c ++ " · Base")
  | S i' =>
    try prev := index counts i' in
    try p := pct_prev_str c prev in
    Ok (fmt_int c ++ " · " ++ p)
  end.

Definition build_funnel_bar (counts : list Z) : result FunnelFigure :=
  try labels := rmap (bar_label counts) (zip (seq 0 (length counts)) counts) in
  Ok {| bar_x := counts; bar_y := STAGES; bar_text := labels |}.

Definition build_kpi_trend (df : list MonthlyKpiRow) (col title : string)
    : result TrendFigure :=
  try ys := rmap (column col) df in
  Ok {| trend_title := title; trend_x := map month df; trend_y := ys |}.

(** *** Callbacks *)

Definition update_overview (employee : string) : result Overview :=
  try all := dict_getitem DATA_BY_EMP "All" in
  let counts := dict_get DATA_BY_EMP employee all in
  try fig := build_funnel_bar counts in
  match counts with
  | [imp; clk; lead; mql; sql; won] =>
    try r_ctr := pct_prev clk imp in
    try r_lead := pct_prev lead clk in
    try r_mql := pct_prev mql lead in
    try r_sql := pct_prev sql mql in
    try r_won := pct_prev won sql in
    let pct := fun r => fmt_fixed 2 r ++ "%" in
    let cards :=
      [ {| card_id := "impressions"; card_title := "Impressions";
           card_value := fmt_thousands imp |};
        {| card_id := "ctr"; card_title := "CTR"; card_value := pct r_ctr |};
        {| card_id := "click_to_lead"; card_title := "Click → Lead";
           card_value := pct r_lead |};
        {| card_id := "lead_to_mql"; card_title := "Lead → MQL";
           card_value := pct r_mql |};
        {| card_id := "mql_to_sql"; card_title := "MQL → SQL";
           card_value := pct r_sql |};
        {| card_id := "sql_to_won"; card_title := "SQL → Won";
           card_value := pct r_won |} ] in
    let rates :=
      [("CTR", r_ctr); ("Click → Lead", r_lead); ("Lead → MQL", r_mql);
       ("MQL → SQL", r_sql); ("SQL → Won", r_won)] in
    try bw := rank_kpis rates in
    let '(best, worst) := bw in
    let rate := fun k => default 0%Q (assoc rates k) in
    Ok {| ov_figure := fig;
          ov_cards := cards;
          ov_worst := worst;
          ov_best := best;
          ov_insights :=
            ["• Mayor caída: " ++ worst ++ " · " ++ pct (rate worst);
             "• Mejor etapa: " ++ best ++ " · " ++ pct (rate best);
             "• Won total: " ++ fmt_thousands won] |}
  | _ => Raise ValueError
  end.

Definition cell_int (v : cell) : result Z :=
  match v with
  | CInt n => Ok n
  | CFloat (Finite q) => Ok (trunc q)
  | _ => Raise ValueError
  end.

Definition cell_float (v : cell) : result float64 :=
  match v with
  | CInt n => Ok (Finite (of_int n))
  | CFloat x => Ok x
  | CStr _ => Raise ValueError
  end.

(** The text of a table cell: thousands for a count column, a percentage
    with two decimals otherwise. *)
Definition view_cell (col : string) (v : cell) : result string :=
  if str_in col COUNT_COLUMNS
  then try n := cell_int v in Ok (fmt_thousands n)
  else try x := cell_float v in Ok (fmt_fixed64 2 x ++ "%").

Definition history_seed (employee : string) : N :=
  if String.eqb employee "All" then 77%N
  else Z.to_N (Z.abs (hash employee) mod 10000).

Definition render_details (now : date) (selected_kpi employee : string)
    : result Details :=
  try all := dict_getitem DATA_BY_EMP "All" in
  let counts := dict_get DATA_BY_EMP employee all in
  let seed := history_seed employee in
  try df := make_3_months_kpis now counts seed in
  try fallback := dict_getitem meta "ctr" in
  let '(title, col, expl) := dict_get meta selected_kpi fallback in
  try fig := build_kpi_trend df col (title ++ " · Últimos 3 meses") in
  let txt := "Empleado: " ++ employee ++ " · " ++ expl in
  try view :=
    rmap (fun r => try v := column col r in
                   try s := view_cell col v in
                   Ok (month r, s)) df in
  Ok {| det_figure := fig;
        det_text := txt;
        det_head := ["Mes"; title];
        det_rows := view |}.

Local Open Scope list_scope.

(** *** The clamp *)

Lemma clamp_from (pre : list Z) (p : Z) (rest : list Z) :
  foldl clamp_at (pre ++ p :: rest) (seq (S (length pre)) (length rest))
  = pre ++ p :: running_min p rest.
Proof.
  revert pre p. induction rest as [|c rest IH]; intros pre p; [reflexivity|].
  cbn [length seq foldl running_min].
  assert (Hstep : clamp_at (pre ++ p :: c :: rest) (S (length pre))
                  = (pre ++ [p]) ++ Z.min c p :: rest).
  { unfold clamp_at.
    replace (S (length pre) - 1)%nat with (length pre) by lia.
    rewrite (list_lookup_middle pre (c :: rest) p (length pre) eq_refl).
    replace (pre ++ p :: c :: rest) with ((pre ++ [p]) ++ c :: rest)
      by (rewrite <- app_assoc; reflexivity).
    assert (Hlen : length (pre ++ [p]) = S (length pre))
      by (rewrite length_app; simpl; lia).
    rewrite (list_lookup_middle (pre ++ [p]) rest c (S (length pre)) (eq_sym Hlen)).
    rewrite <- Hlen.
    replace (length (pre ++ [p])) with (length (pre ++ [p]) + 0)%nat at 1 by lia.
    rewrite insert_app_r. reflexivity. }
  rewrite Hstep.
  replace (S (S (length pre))) with (S (length (pre ++ [p])))
    by (rewrite length_app; simpl; lia).
  rewrite IH. rewrite <- app_assoc. reflexivity.
Qed.

Lemma monotone_clamp_clamped (l : list Z) : monotone_clamp l = clamped l.
Proof.
  destruct l as [|c l]; [reflexivity|].
  unfold monotone_clamp, clamped. cbn [length].
  replace (S (length l) - 1)%nat with (length l) by lia.
  exact (clamp_from [] c l).
Qed.

Lemma monotone_clamp_length (l : list Z) :
  length (monotone_clamp l) = length l.
Proof.
  rewrite monotone_clamp_clamped. destruct l as [|c l]; [reflexivity|].
  cbn [clamped length]. f_equal.
  generalize c. induction l as [|d l IH]; intros p; [reflexivity|].
  cbn [running_min length]. f_equal. apply IH.
Qed.

Lemma non_increasing_cons (a b : Z) (l : list Z) :
  a >= b -> non_increasing (b :: l) -> non_increasing (a :: b :: l).
Proof.
  intros Hab Hl [|i] x y Hx Hy.
  - cbn in Hx, Hy. congruence.
  - cbn in Hx, Hy. exact (Hl i x y Hx Hy).
Qed.

Lemma non_increasing_single (a : Z) : non_increasing [a].
Proof. intros [|i] x y Hx Hy; cbn in Hy; discriminate. Qed.

Lemma non_increasing_nil : non_increasing [].
Proof. intros i x y Hx Hy. cbn in Hx. discriminate. Qed.

Lemma running_min_non_increasing (p : Z) (l : list Z) :
  non_increasing (p :: running_min p l).
Proof.
  revert p. induction l as [|c l IH]; intros p.
  - apply non_increasing_single.
  - cbn [running_min]. apply non_increasing_cons; [lia | apply IH].
Qed.

Lemma monotone_clamp_non_increasing (l : list Z) :
  non_increasing (monotone_clamp l).
Proof.
  rewrite monotone_clamp_clamped. destruct l as [|c l].
  - apply non_increasing_nil.
  - apply running_min_non_increasing.
Qed.

(** Clamping keeps non-negative counts non-negative. *)
Lemma running_min_nonneg (p : Z) (l : list Z) :
  0 <= p -> Forall (fun c => 0 <= c) l ->
  Forall (fun c => 0 <= c) (running_min p l).
Proof.
  revert p. induction l as [|c l IH]; intros p Hp Hl; [constructor|].
  inversion Hl; subst. cbn [running_min]. constructor; [lia|].
  apply IH; [lia | assumption].
Qed.

Lemma monotone_clamp_nonneg (l : list Z) :
  Forall (fun c => 0 <= c) l -> Forall (fun c => 0 <= c) (monotone_clamp l).
Proof.
  rewrite monotone_clamp_clamped. destruct l as [|c l]; intros Hl; [constructor|].
  inversion Hl; subst. cbn [clamped]. constructor; [assumption|].
  apply running_min_nonneg; assumption.
Qed.

Lemma make_dummy_funnel_non_increasing (seed : N) :
  non_increasing (make_dummy_funnel seed).
Proof.
  unfold make_dummy_funnel.
  repeat match goal with
         | |- context [let '(_, _) := ?d in _] => destruct d
         end.
  repeat (apply non_increasing_cons; [lia|]).
  apply non_increasing_single.
Qed.

(** *** The employee split *)

Lemma split_by_employees_eq (base : list Z) (seed : N) :
  exists f1 f2 f3 f4 : Q,
    split_by_employees base seed
    = <["All" := sum_employees (named_entries base f1 f2 f3 f4) (length base)]>
        (named_entries base f1 f2 f3 f4).
Proof.
  unfold split_by_employees.
  change (zip (seq 0 (length emps)) emps)
    with [(0, "Sofía"); (1, "Mateo"); (2, "Valentina"); (3, "Juan")]%nat.
  cbn [foldl]. unfold split_step.
  repeat match goal with
         | |- context [normal ?g ?mu ?sd] => destruct (normal g mu sd)
         end.
  eexists _, _, _, _. reflexivity.
Qed.

Lemma named_entries_lookup (base : list Z) (f1 f2 f3 f4 : Q) (e : string) :
  In e emps ->
  exists f : Q,
    named_entries base f1 f2 f3 f4 !! e = Some (employee_counts base f).
Proof.
  unfold emps, named_entries. cbn [In].
  intros [<- | [<- | [<- | [<- | []]]]];
    eexists; repeat (rewrite lookup_insert_ne by discriminate);
    apply lookup_insert_eq.
Qed.

Lemma employee_counts_length (base : list Z) (f : Q) :
  length (employee_counts base f) = length base.
Proof.
  unfold employee_counts. rewrite monotone_clamp_length. apply length_map.
Qed.

(** The inner loop: after the indices [0 .. j-1], exactly those positions
    have received the employee's count. *)
Lemma add_at_prefix (per_emp : gmap string (list Z)) (e : string)
    (summed : list Z) (j : nat) :
  (j <= length summed)%nat ->
  let r := foldl (add_at per_emp e) summed (seq 0 j) in
  length r = length summed /\
  forall i : nat,
    r !!! i = if (i <? j)%nat
              then summed !!! i + (per_emp !!! e) !!! i
              else summed !!! i.
Proof.
  induction j as [|j IH]; intros Hj; cbn zeta.
  - split; [reflexivity|]. intros i. reflexivity.
  - rewrite seq_S, foldl_app. cbn [foldl Nat.add].
    destruct IH as [Hlen Hval]; [lia|].
    set (r := foldl (add_at per_emp e) summed (seq 0 j)) in *.
    unfold add_at. split.
    + rewrite length_insert. exact Hlen.
    + intros i. destruct (Nat.eq_dec i j) as [->|Hne].
      * rewrite list_lookup_total_insert_eq by lia.
        rewrite Hval. rewrite Nat.ltb_irrefl.
        replace (j <? S j)%nat with true by (symmetry; apply Nat.ltb_lt; lia).
        reflexivity.
      * rewrite list_lookup_total_insert_ne by congruence.
        rewrite Hval.
        destruct (Nat.ltb_spec i j), (Nat.ltb_spec i (S j)); try lia; reflexivity.
Qed.

Lemma add_employee (per_emp : gmap string (list Z)) (e : string)
    (summed : list Z) :
  let r := foldl (add_at per_emp e) summed (seq 0 (length summed)) in
  length r = length summed /\
  forall i : nat, (i < length summed)%nat ->
    r !!! i = summed !!! i + (per_emp !!! e) !!! i.
Proof.
  destruct (add_at_prefix per_emp e summed (length summed) (le_n _))
    as [Hlen Hval].
  split; [exact Hlen|]. intros i Hi. rewrite Hval.
  replace (i <? length summed)%nat with true
    by (symmetry; apply Nat.ltb_lt; exact Hi).
  reflexivity.
Qed.

Lemma sum_employees_spec (per_emp : gmap string (list Z)) (n : nat) :
  length (sum_employees per_emp n) = n /\
  forall i : nat, (i < n)%nat ->
    sum_employees per_emp n !!! i
    = foldl (fun acc e => acc + (per_emp !!! e) !!! i) 0 emps.
Proof.
  unfold sum_employees.
  assert (Hgen : forall (es : list string) (s0 : list Z),
    length s0 = n ->
    let r := foldl (fun summed e => foldl (add_at per_emp e) summed (seq 0 n))
                   s0 es in
    length r = n /\
    forall i : nat, (i < n)%nat ->
      r !!! i = foldl (fun acc e => acc + (per_emp !!! e) !!! i) (s0 !!! i) es).
  { induction es as [|e es IH]; intros s0 Hs0; cbn zeta.
    - split; [exact Hs0|]. intros i _. reflexivity.
    - cbn [foldl].
      destruct (add_employee per_emp e s0) as [Hlen Hval].
      rewrite Hs0 in Hlen, Hval.
      destruct (IH _ Hlen) as [Hlen' Hval'].
      split; [exact Hlen'|]. intros i Hi.
      rewrite (Hval' i Hi), (Hval i Hi). reflexivity. }
  destruct (Hgen emps (replicate n 0) (length_replicate n 0)) as [Hlen Hval].
  split; [exact Hlen|]. intros i Hi. rewrite (Hval i Hi).
  rewrite lookup_total_replicate_2 by exact Hi. reflexivity.
Qed.

(** *** The monthly history *)

Lemma length6 {A : Type} (l : list A) :
  length l = 6%nat -> exists a b c d e f : A, l = [a; b; c; d; e; f].
Proof.
  intros H.
  do 6 (destruct l as [|? l]; [discriminate H|]).
  destruct l; [|discriminate H]. eauto 7.
Qed.

Lemma month_vals_length (base : list Q) (drift : Q) :
  length (month_vals base drift) = length base.
Proof. unfold month_vals. rewrite monotone_clamp_length. apply length_map. Qed.

Lemma month_row_ok (m : string) (vals : list Z) :
  length vals = 6%nat ->
  exists r : MonthlyKpiRow,
    month_row m vals = Ok r /\ stage_counts r = vals /\ month r = m /\
    percentages r
    = [safe_pct (clicks r) (impressions r); safe_pct (leads r) (clicks r);
       safe_pct (mql r) (leads r); safe_pct (sql r) (mql r);
       safe_pct (won r) (sql r)].
Proof.
  intros H. destruct (length6 vals H) as (a & b & c & d & e & f & ->).
  eexists. split; [reflexivity|]. repeat split.
Qed.

Lemma month_row_bad (m : string) (vals : list Z) :
  length vals <> 6%nat -> month_row m vals = Raise ValueError.
Proof.
  intros H. unfold month_row.
  do 6 (destruct vals as [|? vals]; [reflexivity|]).
  destruct vals; [exfalso; apply H; reflexivity | reflexivity].
Qed.

(** The loop, month by month: row [idx] is built from the base counts and
    the multiplier [drift_at seed idx]. *)
Lemma make_3_months_kpis_eq (now : date) (counts_now : list Z) (seed : N) :
  make_3_months_kpis now counts_now seed
  = rmap (fun im : nat * string =>
            month_row (snd im)
              (month_vals (map of_int counts_now) (drift_at seed (fst im))))
         (zip [0; 1; 2]%nat (month_labels now)).
Proof.
  unfold make_3_months_kpis, drift_at.
  change (zip (seq 0 (length (month_labels now))) (month_labels now))
    with (zip [0; 1; 2]%nat (month_labels now)).
  unfold month_labels. cbn [zip_with month_rows rmap nth_noise fst snd].
  destruct (normal (_rng seed) 0 (lit 0.03)) as [x0 g0].
  destruct (normal g0 0 (lit 0.03)) as [x1 g1].
  destruct (normal g1 0 (lit 0.03)) as [x2 g2].
  reflexivity.
Qed.

Lemma make_3_months_kpis_ok (now : date) (counts_now : list Z) (seed : N) :
  length counts_now = 6%nat ->
  exists r0 r1 r2 : MonthlyKpiRow,
    make_3_months_kpis now counts_now seed = Ok [r0; r1; r2] /\
    map month [r0; r1; r2] = month_labels now /\
    month_row (month r0)
      (month_vals (map of_int counts_now) (drift_at seed 0)) = Ok r0 /\
    month_row (month r1)
      (month_vals (map of_int counts_now) (drift_at seed 1)) = Ok r1 /\
    month_row (month r2)
      (month_vals (map of_int counts_now) (drift_at seed 2)) = Ok r2.
Proof.
  intros Hlen. rewrite make_3_months_kpis_eq.
  unfold month_labels. cbn [zip_with rmap fst snd].
  assert (Hv : forall d, length (month_vals (map of_int counts_now) d) = 6%nat)
    by (intros d; rewrite month_vals_length, length_map; exact Hlen).
  destruct (month_row_ok (strftime_Ym (sub_months (replace_day now 1) 2)) _
              (Hv (drift_at seed 0))) as (r0 & E0 & _ & M0 & _).
  destruct (month_row_ok (strftime_Ym (sub_months (replace_day now 1) 1)) _
              (Hv (drift_at seed 1))) as (r1 & E1 & _ & M1 & _).
  destruct (month_row_ok (strftime_Ym (sub_months (replace_day now 1) 0)) _
              (Hv (drift_at seed 2))) as (r2 & E2 & _ & M2 & _).
  exists r0, r1, r2. rewrite E0, E1, E2. cbn [rbind map].
  rewrite M0, M1, M2. repeat split; assumption.
Qed.

Lemma make_3_months_kpis_bad (now : date) (counts_now : list Z) (seed : N) :
  length counts_now <> 6%nat ->
  make_3_months_kpis now counts_now seed = Raise ValueError.
Proof.
  intros Hlen. rewrite make_3_months_kpis_eq.
  unfold month_labels. cbn [zip_with rmap fst snd].
  rewrite month_row_bad; [reflexivity|].
  rewrite month_vals_length, length_map. exact Hlen.
Qed.

Lemma month_row_counts (m : string) (vals : list Z) (r : MonthlyKpiRow) :
  month_row m vals = Ok r -> stage_counts r = vals.
Proof.
  intros H. destruct (Nat.eq_dec (length vals) 6%nat) as [E|E].
  - destruct (month_row_ok m vals E) as (r' & E' & Hc & _). congruence.
  - rewrite (month_row_bad m vals E) in H. discriminate.
Qed.

(** C1.  Every count sequence the three generators produce is
    non-increasing, [count[i] >= count[i+1]] at every stage index: the
    base funnel for every seed, the entry of each named employee for every
    base and seed, and the six stage counts of each of the three monthly
    rows for every clock, six base counts and seed (the only inputs for
    which rows are produced at all). *)
Theorem funnel_counts_non_increasing :
  (forall seed : N, non_increasing (make_dummy_funnel seed)) /\
  (forall (base : list Z) (seed : N) (e : string),
      In e emps ->
      exists counts : list Z,
        split_by_employees base seed !! e = Some counts /\
        non_increasing counts) /\
  (forall (now : date) (counts_now : list Z) (seed : N),
      length counts_now = 6%nat ->
      exists rows : list MonthlyKpiRow,
        make_3_months_kpis now counts_now seed = Ok rows /\
        length rows = 3%nat /\
        forall r : MonthlyKpiRow, In r rows -> non_increasing (stage_counts r)) /\
  (forall (now : date) (counts_now : list Z) (seed : N),
      length counts_now <> 6%nat ->
      make_3_months_kpis now counts_now seed = Raise ValueError).
Proof.
  split; [exact make_dummy_funnel_non_increasing|].
  split; [|split].
  - intros base seed e He.
    destruct (split_by_employees_eq base seed) as (f1 & f2 & f3 & f4 & ->).
    destruct (named_entries_lookup base f1 f2 f3 f4 e He) as [f Hf].
    exists (employee_counts base f). split.
    + rewrite lookup_insert_ne; [exact Hf|].
      unfold emps in He. cbn [In] in He.
      intros <-. intuition discriminate.
    + apply monotone_clamp_non_increasing.
  - intros now counts_now seed Hlen.
    destruct (make_3_months_kpis_ok now counts_now seed Hlen)
      as (r0 & r1 & r2 & E & _ & E0 & E1 & E2).
    exists [r0; r1; r2]. split; [exact E|]. split; [reflexivity|].
    intros r [<- | [<- | [<- | []]]].
    + rewrite (month_row_counts _ _ _ E0). apply monotone_clamp_non_increasing.
    + rewrite (month_row_counts _ _ _ E1). apply monotone_clamp_non_increasing.
    + rewrite (month_row_counts _ _ _ E2). apply monotone_clamp_non_increasing.
  - exact make_3_months_kpis_bad.
Qed.


(** *** Conversion rates *)


(** *** Best and worst KPI *)

Lemma Qltb_lt (x y : Q) : Qltb x y = true <-> (x < y)%Q.
Proof.
  unfold Qltb. rewrite negb_true_iff, <- not_true_iff_false, Qle_bool_iff.
  split; [apply Qnot_le_lt | apply Qlt_not_le].
Qed.

Lemma Qltb_ge (x y : Q) : Qltb x y = false <-> (y <= x)%Q.
Proof.
  unfold Qltb. rewrite negb_false_iff. apply Qle_bool_iff.
Qed.

(** [max] returns a greatest element, and every element before it in the
    iteration order is strictly smaller. *)
Lemma max_from_spec {A : Type} (key : A -> Q) (best : A) (l : list A) :
  exists pre post : list A,
    best :: l = pre ++ max_from key best l :: post /\
    Forall (fun x => (key x < key (max_from key best l))%Q) pre /\
    Forall (fun x => (key x <= key (max_from key best l))%Q) (best :: l).
Proof.
  revert best. induction l as [|x l IH]; intros best.
  - exists [], []. cbn [max_from]. repeat split; [constructor|].
    constructor; [apply Qle_refl | constructor].
  - cbn [max_from]. destruct (Qltb (key best) (key x)) eqn:E.
    + apply Qltb_lt in E.
      destruct (IH x) as (pre & post & Hsplit & Hpre & Hall).
      set (r := max_from key x l) in *.
      assert (Hx : (key x <= key r)%Q) by (inversion Hall; assumption).
      exists (best :: pre), post. split; [cbn; rewrite Hsplit; reflexivity|].
      split.
      * constructor; [apply Qlt_le_trans with (key x); assumption | exact Hpre].
      * constructor; [|exact Hall].
        apply Qlt_le_weak. apply Qlt_le_trans with (key x); assumption.
    + apply Qltb_ge in E.
      destruct (IH best) as (pre & post & Hsplit & Hpre & Hall).
      set (r := max_from key best l) in *.
      assert (Hb : (key best <= key r)%Q) by (inversion Hall; assumption).
      assert (Hx : (key x <= key r)%Q) by (apply Qle_trans with (key best); assumption).
      destruct pre as [|b pre].
      * cbn in Hsplit. injection Hsplit as Hr Hl.
        exists [], (x :: l). split; [cbn; rewrite <- Hr; reflexivity|].
        split; [constructor|].
        constructor; [exact Hb|]. constructor; [exact Hx|].
        inversion Hall; assumption.
      * cbn in Hsplit. injection Hsplit as Hr Hl. subst b.
        exists (best :: x :: pre), post.
        split; [cbn; rewrite Hl; reflexivity|].
        apply Forall_cons in Hpre as [Hbr Hpre'].
        split.
        -- constructor; [exact Hbr|]. constructor; [|exact Hpre'].
           apply Qle_lt_trans with (key best); assumption.
        -- constructor; [exact Hb|]. constructor; [exact Hx|].
           inversion Hall; assumption.
Qed.

Lemma min_from_spec {A : Type} (key : A -> Q) (best : A) (l : list A) :
  exists pre post : list A,
    best :: l = pre ++ min_from key best l :: post /\
    Forall (fun x => (key (min_from key best l) < key x)%Q) pre /\
    Forall (fun x => (key (min_from key best l) <= key x)%Q) (best :: l).
Proof.
  revert best. induction l as [|x l IH]; intros best.
  - exists [], []. cbn [min_from]. repeat split; [constructor|].
    constructor; [apply Qle_refl | constructor].
  - cbn [min_from]. destruct (Qltb (key x) (key best)) eqn:E.
    + apply Qltb_lt in E.
      destruct (IH x) as (pre & post & Hsplit & Hpre & Hall).
      set (r := min_from key x l) in *.
      assert (Hx : (key r <= key x)%Q) by (inversion Hall; assumption).
      exists (best :: pre), post. split; [cbn; rewrite Hsplit; reflexivity|].
      split.
      * constructor; [apply Qle_lt_trans with (key x); assumption | exact Hpre].
      * constructor; [|exact Hall].
        apply Qlt_le_weak. apply Qle_lt_trans with (key x); assumption.
    + apply Qltb_ge in E.
      destruct (IH best) as (pre & post & Hsplit & Hpre & Hall).
      set (r := min_from key best l) in *.
      assert (Hb : (key r <= key best)%Q) by (inversion Hall; assumption).
      assert (Hx : (key r <= key x)%Q) by (apply Qle_trans with (key best); assumption).
      destruct pre as [|b pre].
      * cbn in Hsplit. injection Hsplit as Hr Hl.
        exists [], (x :: l). split; [cbn; rewrite <- Hr; reflexivity|].
        split; [constructor|].
        constructor; [exact Hb|]. constructor; [exact Hx|].
        inversion Hall; assumption.
      * cbn in Hsplit. injection Hsplit as Hr Hl. subst b.
        exists (best :: x :: pre), post.
        split; [cbn; rewrite Hl; reflexivity|].
        apply Forall_cons in Hpre as [Hbr Hpre'].
        split.
        -- constructor; [exact Hbr|]. constructor; [|exact Hpre'].
           apply Qlt_le_trans with (key best); assumption.
        -- constructor; [exact Hb|]. constructor; [exact Hx|].
           inversion Hall; assumption.
Qed.

Lemma pct_prev_ok (curr prev : Z) : exists q : Q, pct_prev curr prev = Ok q.
Proof.
  unfold pct_prev, py_truediv. destruct (prev =? 0); cbn; eauto.
Qed.


(** *** The data every callback reads *)

Lemma make_dummy_funnel_length (seed : N) :
  length (make_dummy_funnel seed) = 6%nat.
Proof.
  unfold make_dummy_funnel.
  repeat match goal with
         | |- context [let '(_, _) := ?d in _] => destruct d
         end.
  reflexivity.
Qed.

Lemma split_by_employees_lookup (base : list Z) (seed : N) (e : string)
    (c : list Z) :
  split_by_employees base seed !! e = Some c ->
  In e EMPLOYEES /\ length c = length base.
Proof.
  destruct (split_by_employees_eq base seed) as (f1 & f2 & f3 & f4 & ->).
  unfold named_entries, EMPLOYEES. cbn [In].
  intros H.
  repeat (apply lookup_insert_Some in H as [[<- <-] | [_ H]];
          [split; [tauto|];
           first [ apply employee_counts_length
                 | apply (proj1 (sum_employees_spec _ _)) ] |]).
  rewrite lookup_empty in H. discriminate.
Qed.

Lemma split_by_employees_all (base : list Z) (seed : N) :
  exists all : list Z,
    split_by_employees base seed !! "All" = Some all /\
    length all = length base.
Proof.
  destruct (split_by_employees_eq base seed) as (f1 & f2 & f3 & f4 & ->).
  eexists. split; [apply lookup_insert_eq|].
  apply (proj1 (sum_employees_spec _ _)).
Qed.

Lemma DATA_BY_EMP_all :
  exists all : list Z,
    dict_getitem DATA_BY_EMP "All" = Ok all /\ length all = 6%nat.
Proof.
  destruct (split_by_employees_all BASE_COUNTS 11) as (all & H & Hlen).
  exists all. unfold dict_getitem, DATA_BY_EMP. rewrite H.
  split; [reflexivity|]. rewrite Hlen. apply make_dummy_funnel_length.
Qed.

Lemma DATA_BY_EMP_length (e : string) (all : list Z) :
  length all = 6%nat -> length (dict_get DATA_BY_EMP e all) = 6%nat.
Proof.
  intros Hall. unfold dict_get.
  destruct (DATA_BY_EMP !! e) as [c|] eqn:E; [|exact Hall].
  apply split_by_employees_lookup in E as [_ E].
  cbn. rewrite E. apply make_dummy_funnel_length.
Qed.


(** *** The details view *)

Lemma meta_known (k : string) :
  In k KPI_IDS -> exists t, meta !! k = Some t /\ snd (fst t) = k.
Proof.
  unfold KPI_IDS. cbn [In].
  intros [<- | [<- | [<- | [<- | [<- | [<- | []]]]]]];
    eexists; (split; [vm_compute; reflexivity | reflexivity]).
Qed.

Lemma meta_unknown (k : string) : ~ In k KPI_IDS -> meta !! k = None.
Proof.
  unfold KPI_IDS, meta. cbn [In list_to_map foldr uncurry fst snd].
  intros Hk.
  repeat (rewrite lookup_insert_ne by (intros <-; tauto)).
  apply lookup_empty.
Qed.

Lemma meta_ctr_lookup :
  meta !! "ctr" = Some ("CTR", "ctr", "Clicks / Impressions (%).").
Proof. vm_compute. reflexivity. Qed.

Lemma meta_ctr :
  dict_getitem meta "ctr" = Ok ("CTR", "ctr", "Clicks / Impressions (%).").
Proof. vm_compute. reflexivity. Qed.

(** The column a selector resolves to is one of the six KPI columns. *)
Lemma meta_column (k : string) :
  In (snd (fst (dict_get meta k ("CTR", "ctr", "Clicks / Impressions (%)."))))
     KPI_IDS.
Proof.
  unfold dict_get. destruct (meta !! k) as [t|] eqn:E.
  - cbn. unfold meta in E.
    cbn [list_to_map foldr uncurry fst snd] in E.
    repeat (apply lookup_insert_Some in E as [[_ <-] | [_ E]];
            [cbn; tauto|]).
    rewrite lookup_empty in E. discriminate.
  - cbn. tauto.
Qed.

Lemma view_column_ok (col : string) (r : MonthlyKpiRow) :
  In col KPI_IDS ->
  exists (v : cell) (s : string),
    column col r = Ok v /\ view_cell col v = Ok s.
Proof.
  unfold KPI_IDS. cbn [In].
  intros [<- | [<- | [<- | [<- | [<- | [<- | []]]]]]];
    eexists _, _; (split; [reflexivity|]);
    unfold view_cell;
    match goal with
    | |- context [str_in ?c COUNT_COLUMNS] =>
      let b := eval vm_compute in (str_in c COUNT_COLUMNS) in
      change (str_in c COUNT_COLUMNS) with b
    end; cbn [cell_int cell_float rbind]; reflexivity.
Qed.

Lemma history_months_labels (now : date) :
  month_labels now = map strftime_Ym (history_months now).
Proof. reflexivity. Qed.

Lemma month_ordinal_sub (d : date) (k : Z) :
  month_ordinal (sub_months d k) = month_ordinal d - k.
Proof.
  unfold sub_months, month_ordinal. cbn [dt_year dt_month].
  pose proof (Z.div_mod (dt_year d * 12 + (dt_month d - 1) - k) 12).
  lia.
Qed.

(** [render_details] never raises, whatever the two selectors: it resolves
    the KPI through [meta] with the entry of "ctr" as the default, and
    shows one table row per month of the history, in the order of the
    data frame. *)
Lemma render_details_ok (now : date) (selected_kpi employee : string) :
  exists (d : Details) (title col expl : string),
    dict_get meta selected_kpi ("CTR", "ctr", "Clicks / Impressions (%).")
    = (title, col, expl) /\
    render_details now selected_kpi employee = Ok d /\
    det_head d = ["Mes"; title] /\
    det_text d = ("Empleado: " ++ employee ++ " · " ++ expl)%string /\
    trend_title (det_figure d) = (title ++ " · Últimos 3 meses")%string /\
    trend_x (det_figure d) = month_labels now /\
    map fst (det_rows d) = month_labels now.
Proof.
  unfold render_details.
  destruct DATA_BY_EMP_all as (all & -> & Hall). cbn [rbind].
  pose proof (DATA_BY_EMP_length employee all Hall) as Hlen.
  destruct (make_3_months_kpis_ok now _ (history_seed employee) Hlen)
    as (r0 & r1 & r2 & -> & Hm & _).
  cbn [rbind]. rewrite meta_ctr. cbn [rbind].
  pose proof (meta_column selected_kpi) as Hcol.
  destruct (dict_get meta selected_kpi _) as [[title col] expl].
  cbn [fst snd] in Hcol.
  destruct (view_column_ok col r0 Hcol) as (v0 & s0 & C0 & V0).
  destruct (view_column_ok col r1 Hcol) as (v1 & s1 & C1 & V1).
  destruct (view_column_ok col r2 Hcol) as (v2 & s2 & C2 & V2).
  unfold build_kpi_trend. cbn [rmap rbind].
  rewrite C0, C1, C2. cbn [rbind]. rewrite V0, V1, V2. cbn [rbind].
  eexists _, title, col, expl.
  split; [reflexivity|]. split; [reflexivity|].
  cbn [det_head det_text det_figure det_rows trend_title trend_x map fst].
  repeat split; exact Hm.
Qed.

Lemma pct_prev_str_ok (curr prev : Z) :
  exists s : string, pct_prev_str curr prev = Ok s.
Proof.
  unfold pct_prev_str. destruct (pct_prev_ok curr prev) as [q ->].
  cbn [rbind]. eauto.
Qed.

Lemma build_funnel_bar_ok (counts : list Z) :
  length counts = 6%nat ->
  exists fig : FunnelFigure,
    build_funnel_bar counts = Ok fig /\ bar_x fig = counts /\
    length (bar_text fig) = 6%nat.
Proof.
  intros H. destruct (length6 counts H) as (a & b & c & d & e & f & ->).
  unfold build_funnel_bar.
  change (zip (seq 0 (length [a; b; c; d; e; f])) [a; b; c; d; e; f])
    with [(0, a); (1, b); (2, c); (3, d); (4, e); (5, f)]%nat.
  cbn [rmap bar_label index lookup list_lookup rbind].
  destruct (pct_prev_str_ok b a) as [s1 ->].
  destruct (pct_prev_str_ok c b) as [s2 ->].
  destruct (pct_prev_str_ok d c) as [s3 ->].
  destruct (pct_prev_str_ok e d) as [s4 ->].
  destruct (pct_prev_str_ok f e) as [s5 ->].
  cbn [rbind]. eexists. repeat split.
Qed.

(** [update_overview] never raises, whatever the employee selector. *)
Lemma update_overview_ok (employee : string) :
  exists ov : Overview,
    update_overview employee = Ok ov /\
    exists all : list Z,
      dict_getitem DATA_BY_EMP "All" = Ok all /\
      bar_x (ov_figure ov) = dict_get DATA_BY_EMP employee all.
Proof.
  unfold update_overview.
  destruct DATA_BY_EMP_all as (all & Hall & Hlen). rewrite Hall. cbn [rbind].
  pose proof (DATA_BY_EMP_length employee all Hlen) as Hc.
  destruct (build_funnel_bar_ok _ Hc) as (fig & -> & Hx & _). cbn [rbind].
  destruct (length6 _ Hc) as (imp & clk & lead & mql & sql & won & E).
  rewrite E in *.
  destruct (pct_prev_ok clk imp) as [r1 ->].
  destruct (pct_prev_ok lead clk) as [r2 ->].
  destruct (pct_prev_ok mql lead) as [r3 ->].
  destruct (pct_prev_ok sql mql) as [r4 ->].
  destruct (pct_prev_ok won sql) as [r5 ->].
  cbn [rbind]. unfold rank_kpis. cbn [map fst py_min py_max rbind].
  eexists. split; [reflexivity|]. cbn [ov_figure].
  exists all. split; [reflexivity | rewrite E; exact Hx].
Qed.

(** A selector that is none of the six identifiers resolves to the entry
    of "ctr". *)
Lemma render_details_unknown_kpi (now : date) (k employee : string) :
  ~ In k KPI_IDS ->
  render_details now k employee = render_details now "ctr" employee.
Proof.
  intros Hk. unfold render_details.
  destruct (dict_getitem DATA_BY_EMP "All") as [all|]; [|reflexivity].
  cbn [rbind].
  destruct (make_3_months_kpis _ _ _) as [df|]; [|reflexivity].
  cbn [rbind]. rewrite meta_ctr. cbn [rbind].
  unfold dict_get. rewrite (meta_unknown k Hk), meta_ctr_lookup.
  reflexivity.
Qed.


(** C7.  [render_details] at a KPI selector that is none of the six
    identifiers, here "bogus", for any clock and employee: it does not
    raise, and what it renders is the CTR view (head, text and chart title
    of "ctr", the same result as for the selector "ctr"), not the
    Impressions view. *)
Theorem render_details_unknown_kpi_is_ctr (now : date) (employee : string) :
  exists d : Details,
    render_details now "bogus" employee = Ok d /\
    render_details now "ctr" employee = Ok d /\
    det_head d = ["Mes"; "CTR"] /\
    det_text d
    = ("Empleado: " ++ employee ++ " · Clicks / Impressions (%).")%string /\
    trend_title (det_figure d) = "CTR · Últimos 3 meses" /\
    render_details now "impressions" employee <> Ok d.
Proof.
  assert (Hk : ~ In "bogus" KPI_IDS)
    by (unfold KPI_IDS; cbn [In]; intuition discriminate).
  destruct (render_details_ok now "ctr" employee)
    as (d & title & col & expl & Hm & Hd & Hh & Ht & Htt & _).
  vm_compute in Hm. injection Hm as <- <- <-.
  exists d. rewrite (render_details_unknown_kpi now "bogus" employee Hk).
  repeat split; try assumption.
  destruct (render_details_ok now "impressions" employee)
    as (d' & title' & col' & expl' & Hm' & Hd' & Hh' & _).
  vm_compute in Hm'. injection Hm' as <- <- <-.
  rewrite Hd'. intros H. injection H as ->.
  rewrite Hh in Hh'. discriminate.
Qed.

(** C5.  A click on the card of any of the six KPI identifiers [k] is one
    step that writes both outputs of [kpi_click]: the store becomes [k]
    and the tabs become the details tab, while the employee keeps its
    value.  From the initial state, selecting "Mateo" and then clicking the
    card "ctr" gives employee "Mateo", KPI "ctr", details tab, for which
    [toggle_views] shows the details view; and the details table then has
    exactly three rows, one per month of the history, whose months are the
    current month and the two before it, oldest first. *)
Theorem kpi_click_transition :
  (forall (s : ViewState) (k : string),
      In k KPI_IDS ->
      step s (ClickKpi [card_prop_id k])
      = Ok {| employee := employee s; selected_kpi := k;
              tabs := "tab-details" |}) /\
  run initial_state [SelectEmployee "Mateo"; ClickKpi [card_prop_id "ctr"]]
  = Ok {| employee := "Mateo"; selected_kpi := "ctr"; tabs := "tab-details" |} /\
  toggle_views "tab-details" = (false, true) /\
  (forall now : date,
      exists d : Details,
        render_details now "ctr" "Mateo" = Ok d /\
        length (det_rows d) = 3%nat /\
        map fst (det_rows d) = map strftime_Ym (history_months now) /\
        map month_ordinal (history_months now)
        = [month_ordinal now - 2; month_ordinal now - 1; month_ordinal now]).
Proof.
  split; [|split; [|split]].
  - intros s k. unfold KPI_IDS. cbn [In].
    intros [<- | [<- | [<- | [<- | [<- | [<- | []]]]]]]; reflexivity.
  - reflexivity.
  - reflexivity.
  - intros now.
    destruct (render_details_ok now "ctr" "Mateo")
      as (d & title & col & expl & _ & Hd & _ & _ & _ & _ & Hrows).
    exists d. split; [exact Hd|].
    rewrite <- history_months_labels. split; [|split; [exact Hrows|]].
    + rewrite <- (length_map fst), Hrows. reflexivity.
    + unfold history_months. cbn [map].
      rewrite !month_ordinal_sub.
      unfold month_ordinal, replace_day. cbn [dt_year dt_month].
      repeat f_equal; lia.
Qed.

Lemma non_increasing_lookup_total (l : list Z) (i : nat) :
  non_increasing l -> (S i < length l)%nat -> l !!! i >= l !!! S i.
Proof.
  intros Hl Hi. apply (Hl i).
  - apply list_lookup_lookup_total_lt. lia.
  - apply list_lookup_lookup_total_lt. exact Hi.
Qed.

Lemma named_entries_total (base : list Z) (f1 f2 f3 f4 : Q) (e : string) :
  In e emps ->
  exists f : Q, named_entries base f1 f2 f3 f4 !!! e = employee_counts base f.
Proof.
  intros He. destruct (named_entries_lookup base f1 f2 f3 f4 e He) as [f Hf].
  exists f. rewrite lookup_total_alt, Hf. reflexivity.
Qed.

(** The sum of non-increasing sequences is non-increasing: so is "All". *)
Lemma split_by_employees_non_increasing (base : list Z) (seed : N)
    (e : string) (c : list Z) :
  split_by_employees base seed !! e = Some c -> non_increasing c.
Proof.
  destruct (split_by_employees_eq base seed) as (f1 & f2 & f3 & f4 & ->).
  intros H. apply lookup_insert_Some in H as [[_ <-] | [_ H]].
  - set (P := named_entries base f1 f2 f3 f4).
    destruct (sum_employees_spec P (length base)) as [Hlen Hval].
    intros i a b Ha Hb.
    assert (Hi : (S i < length base)%nat)
      by (rewrite <- Hlen; eapply lookup_lt_Some; exact Hb).
    pose proof (Hval i ltac:(lia)) as Hvi. pose proof (Hval (S i) Hi) as Hvs.
    rewrite list_lookup_total_alt, Ha in Hvi.
    rewrite list_lookup_total_alt, Hb in Hvs. cbn in Hvi, Hvs. subst a b.
    assert (Hentry : forall e' : string, In e' emps ->
               (P !!! e') !!! i >= (P !!! e') !!! S i).
    { intros e' He'.
      destruct (named_entries_total base f1 f2 f3 f4 e' He') as [f Hf].
      unfold P. rewrite Hf. apply non_increasing_lookup_total.
      - apply monotone_clamp_non_increasing.
      - rewrite employee_counts_length. exact Hi. }
    unfold emps in *. cbn [foldl].
    pose proof (Hentry "Sofía" ltac:(cbn; tauto)).
    pose proof (Hentry "Mateo" ltac:(cbn; tauto)).
    pose proof (Hentry "Valentina" ltac:(cbn; tauto)).
    pose proof (Hentry "Juan" ltac:(cbn; tauto)). lia.
  - unfold named_entries in H.
    repeat (apply lookup_insert_Some in H as [[_ <-] | [_ H]];
            [apply monotone_clamp_non_increasing|]).
    rewrite lookup_empty in H. discriminate.
Qed.

(** *** Rendering never fails *)

(** X1.  Both rendering callbacks return a value for every pair of selectors:
    [update_overview] for every employee selector, [render_details] for
    every KPI and employee selector, the latter with exactly three table
    rows, labelled by the three months of the history in order. *)
Theorem rendering_never_raises :
  (forall employee : string,
      exists ov : Overview, update_overview employee = Ok ov) /\
  (forall (now : date) (selected_kpi employee : string),
      exists d : Details,
        render_details now selected_kpi employee = Ok d /\
        length (det_rows d) = 3%nat /\
        map fst (det_rows d) = month_labels now).
Proof.
  split.
  - intros employee.
    destruct (update_overview_ok employee) as (ov & H & _). eauto.
  - intros now selected_kpi employee.
    destruct (render_details_ok now selected_kpi employee)
      as (d & title & col & expl & _ & Hd & _ & _ & _ & _ & Hrows).
    exists d. split; [exact Hd|]. split; [|exact Hrows].
    rewrite <- (length_map fst), Hrows. reflexivity.
Qed.


(** *** Determinism *)



(** *** More on the clamp *)

Lemma running_min_below (p : Z) (l : list Z) :
  Forall2 Z.le (running_min p l) l.
Proof.
  revert p. induction l as [|c l IH]; intros p; cbn [running_min].
  - constructor.
  - constructor; [lia | apply IH].
Qed.

Lemma running_min_fixes (p : Z) (l : list Z) :
  non_increasing (p :: l) -> running_min p l = l.
Proof.
  revert p. induction l as [|c l IH]; intros p H; [reflexivity|].
  cbn [running_min].
  pose proof (H 0%nat p c eq_refl eq_refl) as Hpc.
  replace (Z.min c p) with c by lia. f_equal.
  apply IH. intros i a b Ha Hb. exact (H (S i) a b Ha Hb).
Qed.

Lemma running_min_greatest (p q : Z) (l m : list Z) :
  q <= p -> non_increasing (q :: m) -> Forall2 Z.le m l ->
  Forall2 Z.le m (running_min p l).
Proof.
  intros Hqp Hm Hml. revert p q Hqp Hm.
  induction Hml as [|x c m l Hxc Hml IH]; intros p q Hqp Hm;
    cbn [running_min]; [constructor|].
  pose proof (Hm 0%nat q x eq_refl eq_refl) as Hqx.
  constructor; [lia|].
  apply (IH (Z.min c p) x); [lia|].
  intros i a b Ha Hb. exact (Hm (S i) a b Ha Hb).
Qed.

(** X4.  The clamp pass returns the greatest funnel below its input: the
    result has the same length and the same first count, no count is raised,
    the result is non-increasing, and every non-increasing sequence that is
    pointwise at most the input is pointwise at most the result.  A sequence
    that is already non-increasing comes back unchanged, so the pass is
    idempotent. *)
Theorem monotone_clamp_greatest_funnel_below (l : list Z) :
  length (monotone_clamp l) = length l /\
  head (monotone_clamp l) = head l /\
  Forall2 Z.le (monotone_clamp l) l /\
  non_increasing (monotone_clamp l) /\
  (forall m : list Z,
      non_increasing m -> Forall2 Z.le m l ->
      Forall2 Z.le m (monotone_clamp l)) /\
  (non_increasing l -> monotone_clamp l = l) /\
  monotone_clamp (monotone_clamp l) = monotone_clamp l.
Proof.
  assert (Hfix : forall l' : list Z, non_increasing l' -> monotone_clamp l' = l').
  { intros l' H. rewrite monotone_clamp_clamped.
    destruct l' as [|c l']; [reflexivity|].
    cbn [clamped]. f_equal. apply running_min_fixes. exact H. }
  split; [apply monotone_clamp_length|].
  split; [rewrite monotone_clamp_clamped; destruct l; reflexivity|].
  split.
  { rewrite monotone_clamp_clamped. destruct l as [|c l]; cbn [clamped].
    - constructor.
    - constructor; [lia | apply running_min_below]. }
  split; [apply monotone_clamp_non_increasing|].
  split.
  { intros m Hm Hml. rewrite monotone_clamp_clamped.
    destruct Hml as [|x c m l Hxc Hml]; cbn [clamped]; [constructor|].
    constructor; [exact Hxc|].
    apply (running_min_greatest c x); [exact Hxc | exact Hm | exact Hml]. }
  split; [apply Hfix|].
  apply Hfix, monotone_clamp_non_increasing.
Qed.

(** *** The bar chart of any list of counts *)

Lemma pct_prev_zero (curr : Z) : pct_prev curr 0 = Ok 0%Q.
Proof. reflexivity. Qed.

Lemma pct_prev_str_eq (curr prev : Z) (r : Q) :
  pct_prev curr prev = Ok r ->
  pct_prev_str curr prev = Ok (fmt_fixed 2 r ++ "%")%string.
Proof. intros H. unfold pct_prev_str. rewrite H. reflexivity. Qed.

(** The labels of the bars from position [length pre] on. *)
Lemma bar_labels_from (counts pre suf : list Z) :
  counts = pre ++ suf ->
  exists labels : list string,
    rmap (bar_label counts) (zip (seq (length pre) (length suf)) suf)
    = Ok labels /\
    length labels = length suf /\
    forall (j : nat) (c : Z), suf !! j = Some c ->
      exists lbl : string,
        labels !! j = Some lbl /\
        bar_label counts ((length pre + j)%nat, c) = Ok lbl.
Proof.
  revert pre. induction suf as [|c suf IH]; intros pre E.
  - exists []. repeat split. intros j c Hj. discriminate Hj.
  - assert (Hl : exists lbl, bar_label counts (length pre, c) = Ok lbl).
    { unfold bar_label. destruct (length pre) as [|i'] eqn:Hp; [eauto|].
      unfold index.
      destruct (lookup_lt_is_Some_2 counts i') as [p Hp'].
      { rewrite E, length_app, Hp. lia. }
      rewrite Hp'. cbn [rbind].
      destruct (pct_prev_str_ok c p) as [s ->]. cbn [rbind]. eauto. }
    destruct Hl as [lbl Hlbl].
    destruct (IH (pre ++ [c])) as (labels & Hrm & Hlen & Hall).
    { rewrite <- app_assoc. exact E. }
    rewrite length_app in Hrm, Hall. cbn [length] in Hrm, Hall.
    rewrite Nat.add_1_r in Hrm, Hall.
    exists (lbl :: labels).
    cbn [length seq zip_with rmap]. rewrite Hlbl, Hrm. cbn [rbind].
    split; [reflexivity|]. split; [rewrite Hlen; reflexivity|].
    intros [|j] c' Hj.
    + injection Hj as <-. exists lbl. rewrite Nat.add_0_r.
      split; [reflexivity | exact Hlbl].
    + destruct (Hall j c' Hj) as (lbl' & H1 & H2).
      exists lbl'. split; [exact H1|].
      rewrite <- H2. f_equal. f_equal. lia.
Qed.

(** X7.  [build_funnel_bar] returns a figure for every list of counts, the
    empty one included: its [x] is the list, it has one label per count, the
    first label is the formatted count followed by Base, and the label of a
    later bar is the formatted count followed by its percentage of the count
    before it with two decimals.  The lookup [counts[i-1]] is always in range,
    and a count that follows a zero is labelled with a rate of zero instead of
    raising on the division. *)
Theorem build_funnel_bar_labels (counts : list Z) :
  exists fig : FunnelFigure,
    build_funnel_bar counts = Ok fig /\
    bar_x fig = counts /\ bar_y fig = STAGES /\
    length (bar_text fig) = length counts /\
    (forall c : Z, counts !! 0%nat = Some c ->
       bar_text fig !! 0%nat = Some (fmt_int c ++ " · Base")%string) /\
    (forall (i : nat) (p c : Z),
       counts !! i = Some p -> counts !! S i = Some c ->
       exists r : Q,
         pct_prev c p = Ok r /\ (p = 0 -> r = 0%Q) /\
         bar_text fig !! S i
         = Some (fmt_int c ++ " · " ++ fmt_fixed 2 r ++ "%")%string).
Proof.
  destruct (bar_labels_from counts [] counts eq_refl)
    as (labels & Hrm & Hlen & Hall).
  cbn [length] in Hrm.
  exists {| bar_x := counts; bar_y := STAGES; bar_text := labels |}.
  unfold build_funnel_bar. rewrite Hrm. cbn [rbind bar_x bar_y bar_text].
  repeat split; [exact Hlen | |].
  - intros c Hc. destruct (Hall 0%nat c Hc) as (lbl & Hl & Hb).
    cbn in Hb. injection Hb as <-. exact Hl.
  - intros i p c Hp Hc.
    destruct (Hall (S i) c Hc) as (lbl & Hl & Hb).
    cbn [length Nat.add bar_label] in Hb. unfold index in Hb.
    rewrite Hp in Hb. cbn [rbind] in Hb.
    destruct (pct_prev_ok c p) as [r Hr].
    rewrite (pct_prev_str_eq c p r Hr) in Hb. cbn [rbind] in Hb.
    injection Hb as <-.
    exists r. split; [exact Hr|]. split; [|exact Hl].
    intros ->. rewrite pct_prev_zero in Hr. injection Hr as <-. reflexivity.
Qed.

(** *** The overview, written out *)

Lemma min_from_in {A : Type} (key : A -> Q) (best : A) (l : list A) :
  In (min_from key best l) (best :: l).
Proof.
  destruct (min_from_spec key best l) as (pre & post & E & _).
  rewrite E. apply in_elt.
Qed.

Lemma max_from_in {A : Type} (key : A -> Q) (best : A) (l : list A) :
  In (max_from key best l) (best :: l).
Proof.
  destruct (max_from_spec key best l) as (pre & post & E & _).
  rewrite E. apply in_elt.
Qed.

(** Both selected keys are keys of the dict. *)
Lemma rank_kpis_in (rates : list (string * Q)) (best worst : string) :
  rank_kpis rates = Ok (best, worst) ->
  In best (map fst rates) /\ In worst (map fst rates).
Proof.
  unfold rank_kpis. destruct (map fst rates) as [|k ks];
    cbn [py_min py_max rbind]; [discriminate|].
  intros H.
  set (rate := fun k0 : string => default 0%Q (assoc rates k0)) in *.
  assert (Hb : max_from rate k ks = best) by congruence.
  assert (Hw : min_from rate k ks = worst) by congruence.
  rewrite <- Hb, <- Hw. split; [apply max_from_in | apply min_from_in].
Qed.

(** What [update_overview] returns, in terms of the six counts of the
    selected employee and of the five rates computed from them. *)
Lemma update_overview_shape (employee : string) :
  exists (all : list Z) (imp clk lead mql sql won : Z) (r1 r2 r3 r4 r5 : Q)
         (best worst : string),
    dict_getitem DATA_BY_EMP "All" = Ok all /\
    dict_get DATA_BY_EMP employee all = [imp; clk; lead; mql; sql; won] /\
    (pct_prev clk imp = Ok r1 /\ pct_prev lead clk = Ok r2 /\
     pct_prev mql lead = Ok r3 /\ pct_prev sql mql = Ok r4 /\
     pct_prev won sql = Ok r5) /\
    rank_kpis (overview_rates r1 r2 r3 r4 r5) = Ok (best, worst) /\
    let pct := fun r : Q => (fmt_fixed 2 r ++ "%")%string in
    let rate := fun k : string =>
      default 0%Q (assoc (overview_rates r1 r2 r3 r4 r5) k) in
    update_overview employee
    = Ok {| ov_figure :=
              {| bar_x := [imp; clk; lead; mql; sql; won];
                 bar_y := STAGES;
                 bar_text :=
                   [fmt_int imp ++ " · Base";
                    fmt_int clk ++ " · " ++ pct r1;
                    fmt_int lead ++ " · " ++ pct r2;
                    fmt_int mql ++ " · " ++ pct r3;
                    fmt_int sql ++ " · " ++ pct r4;
                    fmt_int won ++ " · " ++ pct r5]%string |};
            ov_cards :=
              [ {| card_id := "impressions"; card_title := "Impressions";
                   card_value := fmt_thousands imp |};
                {| card_id := "ctr"; card_title := "CTR";
                   card_value := pct r1 |};
                {| card_id := "click_to_lead"; card_title := "Click → Lead";
                   card_value := pct r2 |};
                {| card_id := "lead_to_mql"; card_title := "Lead → MQL";
                   card_value := pct r3 |};
                {| card_id := "mql_to_sql"; card_title := "MQL → SQL";
                   card_value := pct r4 |};
                {| card_id := "sql_to_won"; card_title := "SQL → Won";
                   card_value := pct r5 |} ];
            ov_worst := worst;
            ov_best := best;
            ov_insights :=
              ["• Mayor caída: " ++ worst ++ " · " ++ pct (rate worst);
               "• Mejor etapa: " ++ best ++ " · " ++ pct (rate best);
               "• Won total: " ++ fmt_thousands won]%string |}.
Proof.
  destruct DATA_BY_EMP_all as (all & Hall & Hlen).
  pose proof (DATA_BY_EMP_length employee all Hlen) as Hc.
  destruct (length6 _ Hc) as (imp & clk & lead & mql & sql & won & E).
  destruct (pct_prev_ok clk imp) as [r1 H1].
  destruct (pct_prev_ok lead clk) as [r2 H2].
  destruct (pct_prev_ok mql lead) as [r3 H3].
  destruct (pct_prev_ok sql mql) as [r4 H4].
  destruct (pct_prev_ok won sql) as [r5 H5].
  exists all, imp, clk, lead, mql, sql, won, r1, r2, r3, r4, r5.
  eexists _, _.
  split; [exact Hall|]. split; [exact E|].
  split; [repeat split; assumption|].
  split; [unfold rank_kpis; cbn [overview_rates map fst py_min py_max rbind];
          reflexivity|].
  cbv zeta. unfold update_overview. rewrite Hall. cbn [rbind]. rewrite E.
  unfold build_funnel_bar.
  change (zip (seq 0 (length [imp; clk; lead; mql; sql; won]))
              [imp; clk; lead; mql; sql; won])
    with [(0, imp); (1, clk); (2, lead); (3, mql); (4, sql); (5, won)]%nat.
  cbn [rmap bar_label index lookup list_lookup rbind].
  rewrite (pct_prev_str_eq _ _ _ H1), (pct_prev_str_eq _ _ _ H2),
    (pct_prev_str_eq _ _ _ H3), (pct_prev_str_eq _ _ _ H4),
    (pct_prev_str_eq _ _ _ H5).
  cbn [rbind]. rewrite H1, H2, H3, H4, H5. cbn [rbind].
  unfold rank_kpis. cbn [map fst py_min py_max rbind].
  reflexivity.
Qed.

(** X8.  In every overview the chart and the cards show the same numbers:
    the six cards carry the six KPI identifiers in order, the first card
    shows the chart's first count with thousands separators, and the label
    of every later bar is the formatted count of that bar followed by the
    very percentage text of the card at the same position. *)
Theorem overview_chart_agrees_with_cards (employee : string) :
  exists ov : Overview,
    update_overview employee = Ok ov /\
    map card_id (ov_cards ov) = KPI_IDS /\
    length (bar_x (ov_figure ov)) = 6%nat /\
    length (bar_text (ov_figure ov)) = 6%nat /\
    (forall (n : Z) (card : KpiCard),
        bar_x (ov_figure ov) !! 0%nat = Some n ->
        ov_cards ov !! 0%nat = Some card ->
        card_value card = fmt_thousands n /\
        bar_text (ov_figure ov) !! 0%nat
        = Some (fmt_int n ++ " · Base")%string) /\
    (forall (i : nat) (n : Z) (card : KpiCard),
        bar_x (ov_figure ov) !! S i = Some n ->
        ov_cards ov !! S i = Some card ->
        bar_text (ov_figure ov) !! S i
        = Some (fmt_int n ++ " · " ++ card_value card)%string).
Proof.
  destruct (update_overview_shape employee)
    as (all & imp & clk & lead & mql & sql & won & r1 & r2 & r3 & r4 & r5
        & best & worst & _ & _ & _ & _ & Hov).
  cbv zeta in Hov. eexists. split; [exact Hov|].
  cbn [ov_figure ov_cards bar_x bar_text map card_id length].
  split; [reflexivity|]. split; [reflexivity|]. split; [reflexivity|].
  split.
  - intros n card Hn Hcard. injection Hn as <-. injection Hcard as <-.
    split; reflexivity.
  - intros i n card Hn Hcard.
    do 5 (destruct i as [|i];
          [injection Hn as <-; injection Hcard as <-; reflexivity|]).
    discriminate Hn.
Qed.

Lemma overview_rate_of_title (r1 r2 r3 r4 r5 : Q) (k : string) :
  In k (map fst (overview_rates r1 r2 r3 r4 r5)) ->
  exists card : KpiCard,
    In card
      [ {| card_id := "ctr"; card_title := "CTR";
           card_value := (fmt_fixed 2 r1 ++ "%")%string |};
        {| card_id := "click_to_lead"; card_title := "Click → Lead";
           card_value := (fmt_fixed 2 r2 ++ "%")%string |};
        {| card_id := "lead_to_mql"; card_title := "Lead → MQL";
           card_value := (fmt_fixed 2 r3 ++ "%")%string |};
        {| card_id := "mql_to_sql"; card_title := "MQL → SQL";
           card_value := (fmt_fixed 2 r4 ++ "%")%string |};
        {| card_id := "sql_to_won"; card_title := "SQL → Won";
           card_value := (fmt_fixed 2 r5 ++ "%")%string |} ] /\
    card_title card = k /\
    card_value card
    = (fmt_fixed 2 (default 0%Q (assoc (overview_rates r1 r2 r3 r4 r5) k))
       ++ "%")%string.
Proof.
  cbn [overview_rates map fst In].
  intros [<- | [<- | [<- | [<- | [<- | []]]]]];
    eexists (Build_KpiCard _ _ _); (split; [|split; reflexivity]);
    cbn [In]; eauto 10.
Qed.

(** X9.  The two insight lines of the overview quote two of its cards: the
    stage named as the largest drop and the stage named as the best are the
    titles of two rate cards (never the Impressions card), and each line
    shows exactly the percentage text of that card; the third line shows
    the last count of the chart with thousands separators. *)
Theorem overview_insights_quote_cards (employee : string) :
  exists (ov : Overview) (cw cb : KpiCard) (won : Z),
    update_overview employee = Ok ov /\
    In cw (ov_cards ov) /\ In cb (ov_cards ov) /\
    card_title cw = ov_worst ov /\ card_title cb = ov_best ov /\
    card_id cw <> "impressions" /\ card_id cb <> "impressions" /\
    bar_x (ov_figure ov) !! 5%nat = Some won /\
    ov_insights ov
    = ["• Mayor caída: " ++ card_title cw ++ " · " ++ card_value cw;
       "• Mejor etapa: " ++ card_title cb ++ " · " ++ card_value cb;
       "• Won total: " ++ fmt_thousands won]%string.
Proof.
  destruct (update_overview_shape employee)
    as (all & imp & clk & lead & mql & sql & won & r1 & r2 & r3 & r4 & r5
        & best & worst & _ & _ & _ & Hrank & Hov).
  cbv zeta in Hov.
  destruct (rank_kpis_in _ _ _ Hrank) as [Hbin Hwin].
  destruct (overview_rate_of_title r1 r2 r3 r4 r5 worst Hwin)
    as (cw & Hcw & Htw & Hvw).
  destruct (overview_rate_of_title r1 r2 r3 r4 r5 best Hbin)
    as (cb & Hcb & Htb & Hvb).
  eexists _, cw, cb, won. split; [exact Hov|].
  cbn [ov_cards ov_worst ov_best ov_figure ov_insights bar_x].
  split; [right; exact Hcw|]. split; [right; exact Hcb|].
  split; [exact Htw|]. split; [exact Htb|].
  split.
  { cbn [In] in Hcw.
    destruct Hcw as [<- | [<- | [<- | [<- | [<- | []]]]]]; discriminate. }
  split.
  { cbn [In] in Hcb.
    destruct Hcb as [<- | [<- | [<- | [<- | [<- | []]]]]]; discriminate. }
  split; [reflexivity|].
  rewrite Htw, Htb, Hvw, Hvb. reflexivity.
Qed.

(** *** The details view, cell by cell *)

(** The cell of a KPI column and its text in the table: the count with
    thousands separators for "impressions", the rate with two decimals and
    a percent sign for the five others. *)
Lemma view_cell_of_column (col : string) (r : MonthlyKpiRow) :
  In col KPI_IDS ->
  exists (v : cell) (s : string),
    column col r = Ok v /\ view_cell col v = Ok s /\
    match v with
    | CInt n => col = "impressions" /\ s = fmt_thousands n
    | CFloat x =>
      col <> "impressions" /\ s = (fmt_fixed64 2 x ++ "%")%string
    | CStr _ => False
    end.
Proof.
  unfold KPI_IDS. cbn [In].
  intros [<- | [<- | [<- | [<- | [<- | [<- | []]]]]]];
    eexists _, _; (split; [reflexivity|]);
    unfold view_cell;
    match goal with
    | |- context [str_in ?c COUNT_COLUMNS] =>
      let b := eval vm_compute in (str_in c COUNT_COLUMNS) in
      change (str_in c COUNT_COLUMNS) with b
    end; cbn [cell_int cell_float rbind];
    (split; [reflexivity|]); (split; [|reflexivity]);
    first [reflexivity | discriminate].
Qed.

Lemma meta_known_column (k : string) :
  In k KPI_IDS ->
  snd (fst (dict_get meta k ("CTR", "ctr", "Clicks / Impressions (%)."))) = k.
Proof.
  intros Hk. destruct (meta_known k Hk) as (t & Ht & Hs).
  unfold dict_get. rewrite Ht. exact Hs.
Qed.

(** X10.  The table of the details view shows what its chart plots: both
    read the same column, which is one of the six KPI columns and is the
    selected KPI whenever that is one of the six identifiers; the table has
    one row per plotted month, in the same order; and the text of every
    row is the plotted value formatted, with thousands separators for the
    impressions count and with two decimals and a percent sign for a
    rate. *)
Theorem details_table_agrees_with_trend
    (now : date) (selected_kpi employee : string) :
  exists (d : Details) (col : string),
    render_details now selected_kpi employee = Ok d /\
    In col KPI_IDS /\
    (In selected_kpi KPI_IDS -> col = selected_kpi) /\
    map fst (det_rows d) = trend_x (det_figure d) /\
    Forall2
      (fun (v : cell) (row : string * string) =>
         match v with
         | CInt n => col = "impressions" /\ snd row = fmt_thousands n
         | CFloat x =>
           col <> "impressions" /\ snd row = (fmt_fixed64 2 x ++ "%")%string
         | CStr _ => False
         end)
      (trend_y (det_figure d)) (det_rows d).
Proof.
  unfold render_details.
  destruct DATA_BY_EMP_all as (all & -> & Hall). cbn [rbind].
  pose proof (DATA_BY_EMP_length employee all Hall) as Hlen.
  destruct (make_3_months_kpis_ok now _ (history_seed employee) Hlen)
    as (r0 & r1 & r2 & -> & Hm & _).
  cbn [rbind]. rewrite meta_ctr. cbn [rbind].
  pose proof (meta_column selected_kpi) as Hcol.
  pose proof (meta_known_column selected_kpi) as Hsel.
  destruct (dict_get meta selected_kpi _) as [[title col] expl].
  cbn [fst snd] in Hcol, Hsel.
  destruct (view_cell_of_column col r0 Hcol) as (v0 & s0 & C0 & V0 & F0).
  destruct (view_cell_of_column col r1 Hcol) as (v1 & s1 & C1 & V1 & F1).
  destruct (view_cell_of_column col r2 Hcol) as (v2 & s2 & C2 & V2 & F2).
  unfold build_kpi_trend. cbn [rmap rbind].
  rewrite C0, C1, C2. cbn [rbind]. rewrite V0, V1, V2. cbn [rbind].
  eexists _, col.
  split; [reflexivity|]. split; [exact Hcol|]. split; [exact Hsel|].
  cbn [det_figure det_rows trend_x trend_y map fst].
  split; [reflexivity|].
  repeat constructor; cbn [snd]; assumption.
Qed.

(** *** From a card to its details *)

Lemma KPI_HELP_titles :
  Forall (fun title : string => is_Some (KPI_HELP !! title))
    ["Impressions"; "CTR"; "Click → Lead"; "Lead → MQL"; "MQL → SQL";
     "SQL → Won"].
Proof. repeat constructor; vm_compute; eexists; reflexivity. Qed.

(** X11.  Every card of the overview leads to its own details.  For each
    card, a click reported with the card's [prop_id] makes [kpi_click]
    return the card's identifier and the details tab; [render_details]
    knows that identifier, so its fallback entry is not used: the table is
    headed by the card's title and the chart is titled with it; and
    [KPI_HELP] has a text for the card's title, which is the help text
    [kpi_card] gives the card. *)
Theorem card_click_opens_its_details (now : date) (employee : string) :
  exists ov : Overview,
    update_overview employee = Ok ov /\
    forall (c : KpiCard) (others : list string),
      In c (ov_cards ov) ->
      kpi_click (card_prop_id (card_id c) :: others)
      = Ok (card_id c, "tab-details") /\
      In (card_id c) KPI_IDS /\
      is_Some (meta !! card_id c) /\
      (exists h : string,
          KPI_HELP !! card_title c = Some h /\
          kpi_card_help (card_title c) = h) /\
      exists d : Details,
        render_details now (card_id c) employee = Ok d /\
        det_head d = ["Mes"; card_title c] /\
        trend_title (det_figure d)
        = (card_title c ++ " · Últimos 3 meses")%string.
Proof.
  destruct (update_overview_shape employee)
    as (all & imp & clk & lead & mql & sql & won & r1 & r2 & r3 & r4 & r5
        & best & worst & _ & _ & _ & _ & Hov).
  cbv zeta in Hov. eexists. split; [exact Hov|].
  cbn [ov_cards In]. intros c others Hc.
  pose proof KPI_HELP_titles as Hh.
  repeat (apply Forall_cons in Hh as [? Hh]).
  destruct Hc as [<- | [<- | [<- | [<- | [<- | [<- | []]]]]]];
    cbn [card_id card_title];
    (split; [reflexivity|]);
    (split; [cbn [KPI_IDS In]; tauto|]);
    (split; [vm_compute; eexists; reflexivity|]);
    (split;
     [match goal with
      | H : is_Some (KPI_HELP !! ?t) |- context [KPI_HELP !! ?t] =>
        destruct H as [h Hlk]; exists h; split; [exact Hlk|];
        unfold kpi_card_help, dict_get; rewrite Hlk; reflexivity
      end|]);
    match goal with
    | |- context [render_details _ ?k _] =>
      destruct (render_details_ok now k employee)
        as (d & title & col & expl & Hmeta & Hd & Hhead & _ & Htitle & _)
    end;
    vm_compute in Hmeta; injection Hmeta as <- _ _;
    exists d; (split; [exact Hd|]); split; assumption.
Qed.

(** *** Bounds that depend on the rounding *)

Section Rounding.

Hypothesis rnd_ok : rounding_ok rnd.

Lemma rnd_zero : (rnd 0 == 0)%Q.
Proof. apply (rnd_int rnd rnd_ok 0). cbn. lia. Qed.

Lemma rnd_one : (rnd 1 == 1)%Q.
Proof. apply (rnd_int rnd rnd_ok 1). cbn. lia. Qed.

Lemma rnd_hundred : (rnd 100 == 100)%Q.
Proof. apply (rnd_int rnd rnd_ok 100). cbn. lia. Qed.

Lemma rnd_nonneg (x : Q) : (0 <= x)%Q -> (0 <= rnd x)%Q.
Proof.
  intros H. pose proof (rnd_mono rnd rnd_ok 0 x H) as Hm.
  pose proof rnd_zero as H0. lra.
Qed.

Lemma clip_bounds (x lo hi : Q) :
  (lo <= hi)%Q -> (lo <= clip x lo hi <= hi)%Q.
Proof.
  intros H. unfold clip. split.
  - apply Q.min_glb; [apply Q.le_max_r | exact H].
  - apply Q.le_min_r.
Qed.

Ltac idx_cases H :=
  destruct H as [-> | [-> | ->]];
  [ change (inject_Z (Z.of_nat 0)) with 0%Q in *
  | change (inject_Z (Z.of_nat 1)) with 1%Q in *
  | change (inject_Z (Z.of_nat 2)) with 2%Q in * ].

(** The noise bound and the three bases, up to rounding. *)
Lemma noise_bound_near :
  (0.05 - (1 # 1000000) <= lit 0.05 <= 0.05 + (1 # 1000000))%Q.
Proof.
  unfold lit.
  pose proof (rnd_near rnd rnd_ok 0.05 ltac:(lra)). lra.
Qed.

Lemma drift_base_near (idx : nat) :
  (idx < 3)%nat ->
  (0.90 + 0.06 * inject_Z (Z.of_nat idx) - (5 # 1000000)
   <= drift_base idx
   <= 0.90 + 0.06 * inject_Z (Z.of_nat idx) + (5 # 1000000))%Q.
Proof.
  intros Hidx. unfold drift_base, fadd, fmul, lit, of_int.
  pose proof (rnd_near rnd rnd_ok 0.90 ltac:(lra)) as Ha.
  pose proof (rnd_near rnd rnd_ok 0.06 ltac:(lra)) as Hc.
  assert (Hk : (rnd (inject_Z (Z.of_nat idx)) == inject_Z (Z.of_nat idx))%Q)
    by (apply (rnd_int rnd rnd_ok); cbn; lia).
  set (a := rnd 0.90) in *. set (c := rnd 0.06) in *.
  set (k := rnd (inject_Z (Z.of_nat idx))) in *.
  assert (Hck : (c * k == c * inject_Z (Z.of_nat idx))%Q)
    by (rewrite Hk; reflexivity).
  assert (Hidx' : idx = 0%nat \/ idx = 1%nat \/ idx = 2%nat) by lia.
  assert (Hp : (-4 <= c * k <= 4)%Q).
  { rewrite Hck.
    idx_cases Hidx'; lra. }
  pose proof (rnd_near rnd rnd_ok (c * k) Hp) as Hpn.
  set (p := rnd (c * k)) in *.
  assert (Hs : (-4 <= a + p <= 4)%Q).
  { rewrite Hck in Hpn, Hp.
    idx_cases Hidx'; lra. }
  pose proof (rnd_near rnd rnd_ok (a + p) Hs) as Hsn.
  rewrite Hck in Hpn.
  idx_cases Hidx'; lra.
Qed.

Lemma drift_at_unfold (seed : N) (idx : nat) :
  drift_at seed idx
  = fadd (drift_base idx)
         (clip (nth_noise (_rng seed) idx) (- lit 0.05) (lit 0.05)).
Proof. reflexivity. Qed.

Lemma noise_clamped (x : Q) :
  (- lit 0.05 <= clip x (- lit 0.05) (lit 0.05) <= lit 0.05)%Q.
Proof. apply clip_bounds. pose proof noise_bound_near. lra. Qed.

Lemma drift_at_near (seed : N) (idx : nat) :
  (idx < 3)%nat ->
  (0.90 + 0.06 * inject_Z (Z.of_nat idx) - 0.05 - (1 # 100000)
   <= drift_at seed idx
   <= 0.90 + 0.06 * inject_Z (Z.of_nat idx) + 0.05 + (1 # 100000))%Q.
Proof.
  intros Hidx. rewrite drift_at_unfold. unfold fadd.
  pose proof (noise_clamped (nth_noise (_rng seed) idx)) as Hn.
  pose proof noise_bound_near as Hh.
  pose proof (drift_base_near idx Hidx) as Hb.
  set (n := clip _ _ _) in *. set (b := drift_base idx) in *.
  assert (Hidx' : idx = 0%nat \/ idx = 1%nat \/ idx = 2%nat) by lia.
  assert (Hs : (-4 <= b + n <= 4)%Q) by (idx_cases Hidx'; lra).
  pose proof (rnd_near rnd rnd_ok (b + n) Hs) as Hsn.
  idx_cases Hidx'; lra.
Qed.


(** C8.  In [make_3_months_kpis], for every seed, the multiplier applied
    at month index [idx] in 0, 1, 2 is the floating-point sum of the base
    [0.90 + 0.06 * idx] and a noise clamped to [-0.05, 0.05]; so it lies
    between the base plus -0.05 and the base plus 0.05 (as floats), and
    within 0.05 of 0.90, 0.96, 1.02 (as numbers, up to the rounding of
    the few operations involved); the three bases increase strictly with
    the month index. *)
Theorem drift_within_noise_clamp :
  (forall (now : date) (counts_now : list Z) (seed : N),
      make_3_months_kpis now counts_now seed
      = rmap (fun im : nat * string =>
                month_row (snd im)
                  (month_vals (map of_int counts_now)
                              (drift_at seed (fst im))))
             (zip [0; 1; 2]%nat (month_labels now))) /\
  (forall (seed : N) (idx : nat),
      (idx < 3)%nat ->
      exists noise : Q,
        drift_at seed idx = fadd (drift_base idx) noise /\
        (- lit 0.05 <= noise <= lit 0.05)%Q /\
        (fadd (drift_base idx) (- lit 0.05)
         <= drift_at seed idx
         <= fadd (drift_base idx) (lit 0.05))%Q /\
        (0.90 + 0.06 * inject_Z (Z.of_nat idx) - 0.05 - (1 # 100000)
         <= drift_at seed idx
         <= 0.90 + 0.06 * inject_Z (Z.of_nat idx) + 0.05 + (1 # 100000))%Q) /\
  (0.90 - (5 # 1000000) <= drift_base 0 <= 0.90 + (5 # 1000000))%Q /\
  (0.96 - (5 # 1000000) <= drift_base 1 <= 0.96 + (5 # 1000000))%Q /\
  (1.02 - (5 # 1000000) <= drift_base 2 <= 1.02 + (5 # 1000000))%Q /\
  (drift_base 0 < drift_base 1)%Q /\
  (drift_base 1 < drift_base 2)%Q.
Proof.
  pose proof (drift_base_near 0 ltac:(lia)) as H0.
  pose proof (drift_base_near 1 ltac:(lia)) as H1.
  pose proof (drift_base_near 2 ltac:(lia)) as H2.
  change (inject_Z (Z.of_nat 0)) with 0%Q in H0.
  change (inject_Z (Z.of_nat 1)) with 1%Q in H1.
  change (inject_Z (Z.of_nat 2)) with 2%Q in H2.
  split; [exact make_3_months_kpis_eq|].
  split; [|repeat split; lra].
  intros seed idx Hidx.
  exists (clip (nth_noise (_rng seed) idx) (- lit 0.05) (lit 0.05)).
  pose proof (noise_clamped (nth_noise (_rng seed) idx)) as Hn.
  split; [apply drift_at_unfold|]. split; [exact Hn|].
  split; [|exact (drift_at_near seed idx Hidx)].
  rewrite drift_at_unfold. unfold fadd.
  split; apply (rnd_mono rnd rnd_ok); lra.
Qed.

(** *** Percentages of the monthly rows *)

Lemma trunc_nonneg (q : Q) : (0 <= q)%Q -> 0 <= trunc q.
Proof.
  unfold Qle, trunc. cbn [Qnum Qden]. intros H.
  apply Z.quot_pos; lia.
Qed.


Lemma of_int_nonneg (a : Z) : 0 <= a -> (0 <= of_int a)%Q.
Proof.
  intros H. unfold of_int. apply rnd_nonneg.
  change 0%Q with (inject_Z 0). rewrite <- Zle_Qle. exact H.
Qed.





(** *** The counts the program itself builds are non-negative

    [rng.integers(low, high)] returns a value from [low] up to [high]
    excluded. *)

Hypothesis integers_range :
  forall (g : Generator) (lo hi : Z),
    lo < hi -> lo <= fst (integers g lo hi) < hi.

Lemma lit_nonneg (q : Q) : (0 <= q)%Q -> (0 <= lit q)%Q.
Proof. apply rnd_nonneg. Qed.

Lemma clip_nonneg (x lo hi : Q) :
  (0 <= lo)%Q -> (lo <= hi)%Q -> (0 <= clip x (lit lo) (lit hi))%Q.
Proof.
  intros Hlo Hhi.
  pose proof (lit_nonneg lo Hlo) as H0.
  pose proof (rnd_mono rnd rnd_ok lo hi Hhi) as Hm.
  pose proof (clip_bounds x (lit lo) (lit hi) Hm) as [Hc _].
  lra.
Qed.

Lemma scaled_nonneg (c : Z) (f : Q) :
  0 <= c -> (0 <= f)%Q -> 0 <= trunc (fmul (of_int c) f).
Proof.
  intros Hc Hf. apply trunc_nonneg. unfold fmul. apply rnd_nonneg.
  apply Qmult_le_0_compat; [apply of_int_nonneg; exact Hc | exact Hf].
Qed.

Lemma make_dummy_funnel_nonneg (seed : N) :
  Forall (fun c => 0 <= c) (make_dummy_funnel seed).
Proof.
  unfold make_dummy_funnel.
  pose proof (integers_range (_rng seed) 1800000 2500000 ltac:(lia)) as Hb.
  destruct (integers (_rng seed) 1800000 2500000) as [base g0].
  cbn [fst] in Hb.
  repeat match goal with
         | |- context [normal ?g ?mu ?sd] => destruct (normal g mu sd)
         end.
  pose proof (fun c x lo hi Hc Hlo Hhi =>
                scaled_nonneg c (clip x (lit lo) (lit hi)) Hc
                  (clip_nonneg x lo hi Hlo Hhi)) as Hs.
  assert (H1 : 0 <= trunc (fmul (of_int base) (clip q (lit 0.006) (lit 0.06))))
    by (apply Hs; [lia | lra | lra]).
  set (click := trunc (fmul (of_int base) _)) in *.
  assert (H2 : 0 <= trunc (fmul (of_int click) (clip q0 (lit 0.02) (lit 0.22))))
    by (apply Hs; [lia | lra | lra]).
  set (lead := trunc (fmul (of_int click) _)) in *.
  assert (H3 : 0 <= trunc (fmul (of_int lead) (clip q1 (lit 0.10) (lit 0.85))))
    by (apply Hs; [lia | lra | lra]).
  set (mql := trunc (fmul (of_int lead) _)) in *.
  assert (H4 : 0 <= trunc (fmul (of_int mql) (clip q2 (lit 0.08) (lit 0.80))))
    by (apply Hs; [lia | lra | lra]).
  set (sql := trunc (fmul (of_int mql) _)) in *.
  assert (H5 : 0 <= trunc (fmul (of_int sql) (clip q3 (lit 0.02) (lit 0.55))))
    by (apply Hs; [lia | lra | lra]).
  set (won := trunc (fmul (of_int sql) _)) in *.
  repeat (constructor; [lia|]). constructor.
Qed.

(** The normalising sum of the weights is close to 1, so the division that
    normalises them is a division by a positive number. *)
Lemma weights_total_near :
  (0.99 <= foldl fadd (lit 0.28) [lit 0.25; lit 0.25; lit 0.22] <= 1.01)%Q.
Proof.
  cbn [foldl]. unfold fadd, lit.
  pose proof (rnd_near rnd rnd_ok 0.28 ltac:(lra)) as H28.
  pose proof (rnd_near rnd rnd_ok 0.25 ltac:(lra)) as H25.
  pose proof (rnd_near rnd rnd_ok 0.22 ltac:(lra)) as H22.
  set (a := rnd 0.28) in *. set (b := rnd 0.25) in *. set (c := rnd 0.22) in *.
  pose proof (rnd_near rnd rnd_ok (a + b) ltac:(lra)) as H1.
  set (s1 := rnd (a + b)) in *.
  pose proof (rnd_near rnd rnd_ok (s1 + b) ltac:(lra)) as H2.
  set (s2 := rnd (s1 + b)) in *.
  pose proof (rnd_near rnd rnd_ok (s2 + c) ltac:(lra)) as H3.
  lra.
Qed.

Lemma weights_nonneg (i : nat) : (0 <= nth i weights 0)%Q.
Proof.
  assert (H : Forall (fun w => (0 <= w)%Q) weights).
  { unfold weights. pose proof weights_total_near as Ht.
    set (total := foldl fadd (lit 0.28) [lit 0.25; lit 0.25; lit 0.22]) in *.
    cbn [map].
    assert (Hd : forall w : Q, (0 <= w)%Q -> (0 <= fdiv (lit w) total)%Q).
    { intros w Hw. unfold fdiv. apply rnd_nonneg.
      apply Qle_shift_div_l; [lra|]. pose proof (lit_nonneg w Hw). lra. }
    repeat (constructor; [apply Hd; lra|]). constructor. }
  revert i. induction H as [|w ws Hw _ IH]; intros [|i]; cbn [nth].
  - lra.
  - lra.
  - exact Hw.
  - apply IH.
Qed.

Lemma employee_counts_nonneg (base : list Z) (f : Q) :
  Forall (fun c => 0 <= c) base -> (0 <= f)%Q ->
  Forall (fun c => 0 <= c) (employee_counts base f).
Proof.
  intros Hb Hf. unfold employee_counts. apply monotone_clamp_nonneg.
  apply Forall_map. eapply Forall_impl; [exact Hb|].
  intros c Hc. cbn beta. apply scaled_nonneg; assumption.
Qed.

Lemma split_by_employees_eq_nonneg (base : list Z) (seed : N) :
  exists f1 f2 f3 f4 : Q,
    (0 <= f1)%Q /\ (0 <= f2)%Q /\ (0 <= f3)%Q /\ (0 <= f4)%Q /\
    split_by_employees base seed
    = <["All" := sum_employees (named_entries base f1 f2 f3 f4) (length base)]>
        (named_entries base f1 f2 f3 f4).
Proof.
  unfold split_by_employees.
  change (zip (seq 0 (length emps)) emps)
    with [(0, "Sofía"); (1, "Mateo"); (2, "Valentina"); (3, "Juan")]%nat.
  cbn [foldl]. unfold split_step.
  repeat match goal with
         | |- context [normal ?g ?mu ?sd] => destruct (normal g mu sd)
         end.
  assert (Hf : forall (i : nat) (x : Q),
             (0 <= fmul (nth i weights 0%Q) (clip x (lit 0.85) (lit 1.15)))%Q).
  { intros i x. unfold fmul. apply rnd_nonneg.
    apply Qmult_le_0_compat; [apply weights_nonneg | apply clip_nonneg; lra]. }
  eexists _, _, _, _.
  split; [apply (Hf 0%nat)|]. split; [apply (Hf 1%nat)|].
  split; [apply (Hf 2%nat)|]. split; [apply (Hf 3%nat)|].
  reflexivity.
Qed.

Lemma lookup_total_nonneg (l : list Z) (i : nat) :
  Forall (fun c => 0 <= c) l -> 0 <= l !!! i.
Proof.
  intros Hl. rewrite list_lookup_total_alt.
  destruct (l !! i) as [x|] eqn:E; cbn; [|lia].
  rewrite Forall_lookup in Hl. exact (Hl i x E).
Qed.

Lemma split_by_employees_nonneg (base : list Z) (seed : N) (e : string)
    (c : list Z) :
  Forall (fun c => 0 <= c) base ->
  split_by_employees base seed !! e = Some c -> Forall (fun c => 0 <= c) c.
Proof.
  intros Hb.
  destruct (split_by_employees_eq_nonneg base seed)
    as (f1 & f2 & f3 & f4 & H1 & H2 & H3 & H4 & ->).
  assert (Hnamed : forall (e' : string) (c' : list Z),
             named_entries base f1 f2 f3 f4 !! e' = Some c' ->
             Forall (fun c => 0 <= c) c').
  { unfold named_entries. intros e' c' H.
    repeat (apply lookup_insert_Some in H as [[_ <-] | [_ H]];
            [apply employee_counts_nonneg; assumption|]).
    rewrite lookup_empty in H. discriminate. }
  intros H. apply lookup_insert_Some in H as [[_ <-] | [_ H]];
    [|exact (Hnamed e c H)].
  set (P := named_entries base f1 f2 f3 f4) in *.
  destruct (sum_employees_spec P (length base)) as [Hlen Hval].
  rewrite Forall_lookup. intros i x Hx.
  assert (Hi : (i < length base)%nat)
    by (rewrite <- Hlen; eapply lookup_lt_Some; exact Hx).
  pose proof (Hval i Hi) as Hv.
  rewrite list_lookup_total_alt, Hx in Hv. cbn in Hv. subst x.
  assert (Hentry : forall e' : string, 0 <= (P !!! e') !!! i).
  { intros e'. apply lookup_total_nonneg. rewrite lookup_total_alt.
    destruct (P !! e') as [c'|] eqn:E; cbn; [exact (Hnamed e' c' E) | constructor]. }
  unfold emps. cbn [foldl].
  pose proof (Hentry "Sofía"). pose proof (Hentry "Mateo").
  pose proof (Hentry "Valentina"). pose proof (Hentry "Juan"). lia.
Qed.

Lemma DATA_BY_EMP_nonneg (e : string) (all : list Z) :
  dict_getitem DATA_BY_EMP "All" = Ok all ->
  Forall (fun c => 0 <= c) (dict_get DATA_BY_EMP e all).
Proof.
  unfold dict_getitem, dict_get, DATA_BY_EMP, BASE_COUNTS. intros Hall.
  destruct (split_by_employees (make_dummy_funnel 11) 11 !! "All")
    as [a|] eqn:Ea; [|discriminate].
  injection Hall as ->.
  destruct (split_by_employees (make_dummy_funnel 11) 11 !! e) as [c|] eqn:Ec; cbn.
  - exact (split_by_employees_nonneg _ _ _ _ (make_dummy_funnel_nonneg 11) Ec).
  - exact (split_by_employees_nonneg _ _ _ _ (make_dummy_funnel_nonneg 11) Ea).
Qed.

(** X3.  Every entry of [DATA_BY_EMP], "All" included, is a funnel: six counts,
    none negative, none larger than the one before it.  The keys are
    exactly the five of [EMPLOYEES]. *)
Theorem data_by_emp_entries_are_funnels :
  (forall e : string, In e EMPLOYEES -> is_Some (DATA_BY_EMP !! e)) /\
  (forall (e : string) (c : list Z),
      DATA_BY_EMP !! e = Some c ->
      In e EMPLOYEES /\ length c = 6%nat /\
      Forall (fun n => 0 <= n) c /\ non_increasing c).
Proof.
  unfold DATA_BY_EMP, BASE_COUNTS. split.
  - intros e He.
    destruct (split_by_employees_eq (make_dummy_funnel 11) 11)
      as (f1 & f2 & f3 & f4 & ->).
    unfold EMPLOYEES in He. cbn [In] in He.
    unfold named_entries.
    destruct He as [<- | [<- | [<- | [<- | [<- | []]]]]];
      eexists; repeat (rewrite lookup_insert_ne by discriminate);
      apply lookup_insert_eq.
  - intros e c H.
    destruct (split_by_employees_lookup _ _ _ _ H) as [He Hlen].
    split; [exact He|]. split; [rewrite Hlen; apply make_dummy_funnel_length|].
    split.
    + exact (split_by_employees_nonneg _ _ _ _ (make_dummy_funnel_nonneg 11) H).
    + exact (split_by_employees_non_increasing _ _ _ _ H).
Qed.


(** *** The rates of the overview *)

(** A rounding that is monotone gives equal results on equal rationals. *)
Lemma rnd_proper (x y : Q) : (x == y)%Q -> (rnd x == rnd y)%Q.
Proof.
  intros H. apply Qle_antisym; apply (rnd_mono rnd rnd_ok); rewrite H;
    apply Qle_refl.
Qed.

Lemma pct_prev_range (curr prev : Z) :
  0 <= curr <= prev ->
  exists r : Q, pct_prev curr prev = Ok r /\ (0 <= r <= 100)%Q.
Proof.
  intros [Hc Hcp]. unfold pct_prev, py_truediv.
  destruct (prev =? 0) eqn:E; cbn [negb rbind].
  - exists 0%Q. split; [reflexivity | lra].
  - apply Z.eqb_neq in E. eexists. split; [reflexivity|].
    unfold fmul, int_truediv.
    assert (HC : (0 <= inject_Z curr)%Q)
      by (change 0%Q with (inject_Z 0); rewrite <- Zle_Qle; exact Hc).
    assert (HP : (1 <= inject_Z prev)%Q)
      by (change 1%Q with (inject_Z 1); rewrite <- Zle_Qle; lia).
    assert (HCP : (inject_Z curr <= inject_Z prev)%Q)
      by (rewrite <- Zle_Qle; exact Hcp).
    set (C := inject_Z curr) in *. set (P := inject_Z prev) in *.
    assert (Hq0 : (0 <= C / P)%Q) by (apply Qle_shift_div_l; lra).
    assert (Hq1 : (C / P <= 1)%Q) by (apply Qle_shift_div_r; lra).
    pose proof (rnd_mono rnd rnd_ok _ _ Hq0) as Ht0.
    pose proof (rnd_mono rnd rnd_ok _ _ Hq1) as Ht1.
    rewrite rnd_zero in Ht0. rewrite rnd_one in Ht1.
    set (t := rnd (C / P)) in *.
    split.
    + apply rnd_nonneg. lra.
    + pose proof (rnd_mono rnd rnd_ok (t * 100) 100 ltac:(lra)) as Hu.
      pose proof rnd_hundred as Hh. lra.
Qed.

Lemma DATA_BY_EMP_non_increasing (e : string) (all : list Z) :
  dict_getitem DATA_BY_EMP "All" = Ok all ->
  non_increasing (dict_get DATA_BY_EMP e all).
Proof.
  unfold dict_getitem, dict_get, DATA_BY_EMP. intros Hall.
  destruct (split_by_employees BASE_COUNTS 11 !! "All") as [a|] eqn:Ea;
    [|discriminate].
  injection Hall as ->.
  destruct (split_by_employees BASE_COUNTS 11 !! e) as [c|] eqn:Ec; cbn.
  - exact (split_by_employees_non_increasing _ _ _ _ Ec).
  - exact (split_by_employees_non_increasing _ _ _ _ Ea).
Qed.

(** X12.  A rate of the overview is a percentage.  [pct_prev] of a count
    and a count before it that is at least as large lies between 0 and 100,
    and is 0 when the earlier count is 0; the counts of every employee
    selector are such, so each of the five rates the overview computes,
    a count over the count of the stage before, lies between 0 and 100. *)
Theorem overview_rates_within_0_100 :
  (forall curr prev : Z,
      0 <= curr <= prev ->
      exists r : Q, pct_prev curr prev = Ok r /\ (0 <= r <= 100)%Q) /\
  (forall employee : string,
      exists (ov : Overview),
        update_overview employee = Ok ov /\
        forall (i : nat) (p c : Z),
          bar_x (ov_figure ov) !! i = Some p ->
          bar_x (ov_figure ov) !! S i = Some c ->
          exists r : Q, pct_prev c p = Ok r /\ (0 <= r <= 100)%Q).
Proof.
  split; [exact pct_prev_range|].
  intros employee.
  destruct (update_overview_ok employee) as (ov & Hov & all & Hall & Hx).
  exists ov. split; [exact Hov|].
  rewrite Hx. intros i p c Hp Hc.
  apply pct_prev_range. split.
  - pose proof (DATA_BY_EMP_nonneg employee all Hall) as Hpos.
    rewrite Forall_lookup in Hpos. exact (Hpos (S i) c Hc).
  - pose proof (DATA_BY_EMP_non_increasing employee all Hall) as Hmono.
    pose proof (Hmono i p c Hp Hc). lia.
Qed.

(** X13.  The two percentage helpers agree.  On operands of at most 53
    bits, [safe_pct] of the monthly history, which divides NumPy integers,
    and [pct_prev] of the overview, which divides Python integers, return
    the same finite number, 0 when the divisor is 0: the same counts give
    the same rate in the overview and in the details. *)
Theorem safe_pct_agrees_with_pct_prev (num den : Z) :
  Z.abs num <= 2 ^ 53 -> Z.abs den <= 2 ^ 53 ->
  exists q r : Q,
    safe_pct num den = Finite q /\ pct_prev num den = Ok r /\
    (q == r)%Q /\ (den = 0 -> r = 0%Q).
Proof.
  intros Hn Hd. unfold safe_pct, pct_prev, np_true_divide, py_truediv.
  destruct (den =? 0) eqn:E; cbn [negb rbind f64_mul].
  - exists 0%Q, 0%Q. split; [reflexivity|]. split; [reflexivity|].
    split; [apply Qeq_refl | reflexivity].
  - apply Z.eqb_neq in E. eexists _, _.
    split; [reflexivity|]. split; [reflexivity|].
    split; [|intros ->; contradiction].
    unfold fmul, fdiv, int_truediv, of_int.
    apply rnd_proper.
    apply Qmult_comp; [|apply Qeq_refl].
    apply rnd_proper.
    rewrite (rnd_int rnd rnd_ok num Hn), (rnd_int rnd rnd_ok den Hd).
    apply Qeq_refl.
Qed.

(** *** An employee against the total *)

Lemma named_entries_values (base : list Z) (f1 f2 f3 f4 : Q) :
  named_entries base f1 f2 f3 f4 !! "Sofía" = Some (employee_counts base f1) /\
  named_entries base f1 f2 f3 f4 !! "Mateo" = Some (employee_counts base f2) /\
  named_entries base f1 f2 f3 f4 !! "Valentina"
  = Some (employee_counts base f3) /\
  named_entries base f1 f2 f3 f4 !! "Juan" = Some (employee_counts base f4).
Proof.
  unfold named_entries.
  repeat split; repeat (rewrite lookup_insert_ne by discriminate);
    apply lookup_insert_eq.
Qed.

Lemma split_by_employees_at_most_all (base : list Z) (seed : N) (e : string)
    (c : list Z) :
  Forall (fun n => 0 <= n) base ->
  split_by_employees base seed !! e = Some c ->
  exists all : list Z,
    split_by_employees base seed !! "All" = Some all /\
    length c = length all /\
    forall (i : nat) (n a : Z),
      c !! i = Some n -> all !! i = Some a -> 0 <= n <= a.
Proof.
  intros Hb Hc.
  pose proof (split_by_employees_nonneg base seed e c Hb Hc) as Hpos.
  destruct (split_by_employees_lookup base seed e c Hc) as [_ Hlenc].
  revert Hc Hpos.
  destruct (split_by_employees_eq_nonneg base seed)
    as (f1 & f2 & f3 & f4 & H1 & H2 & H3 & H4 & ->).
  set (P := named_entries base f1 f2 f3 f4).
  intros Hc Hpos.
  destruct (sum_employees_spec P (length base)) as [Hlen Hval].
  exists (sum_employees P (length base)).
  split; [apply lookup_insert_eq|]. split; [congruence|].
  intros i n a Hn Ha.
  rewrite Forall_lookup in Hpos. pose proof (Hpos i n Hn) as Hn0.
  split; [exact Hn0|].
  apply lookup_insert_Some in Hc as [[_ <-] | [_ Hc]].
  { rewrite Hn in Ha. injection Ha as <-. lia. }
  assert (Hi : (i < length base)%nat)
    by (rewrite <- Hlen; eapply lookup_lt_Some; exact Ha).
  pose proof (Hval i Hi) as Hv.
  rewrite list_lookup_total_alt, Ha in Hv. cbn in Hv. subst a.
  destruct (named_entries_values base f1 f2 f3 f4) as (E1 & E2 & E3 & E4).
  fold P in E1, E2, E3, E4.
  unfold emps. cbn [foldl].
  rewrite !lookup_total_alt, E1, E2, E3, E4. cbn [default from_option id].
  pose proof (lookup_total_nonneg _ i (employee_counts_nonneg base f1 Hb H1)).
  pose proof (lookup_total_nonneg _ i (employee_counts_nonneg base f2 Hb H2)).
  pose proof (lookup_total_nonneg _ i (employee_counts_nonneg base f3 Hb H3)).
  pose proof (lookup_total_nonneg _ i (employee_counts_nonneg base f4 Hb H4)).
  unfold P, named_entries in Hc.
  repeat (apply lookup_insert_Some in Hc as [[_ <-] | [_ Hc]];
          [rewrite (list_lookup_total_correct _ _ _ Hn); lia|]).
  rewrite lookup_empty in Hc. discriminate.
Qed.

(** X16.  No employee exceeds the total.  When the base counts are not
    negative, every count of every entry that [split_by_employees] returns
    is between 0 and the count of "All" at the same stage, and every entry
    is as long as "All"; this holds in particular for the table
    [DATA_BY_EMP] that both views read. *)
Theorem employee_counts_at_most_all :
  (forall (base : list Z) (seed : N) (e : string) (c : list Z),
      Forall (fun n => 0 <= n) base ->
      split_by_employees base seed !! e = Some c ->
      exists all : list Z,
        split_by_employees base seed !! "All" = Some all /\
        length c = length all /\
        forall (i : nat) (n a : Z),
          c !! i = Some n -> all !! i = Some a -> 0 <= n <= a) /\
  (forall (e : string) (c : list Z),
      DATA_BY_EMP !! e = Some c ->
      exists all : list Z,
        DATA_BY_EMP !! "All" = Some all /\
        length c = length all /\
        forall (i : nat) (n a : Z),
          c !! i = Some n -> all !! i = Some a -> 0 <= n <= a).
Proof.
  split; [exact split_by_employees_at_most_all|].
  intros e c. unfold DATA_BY_EMP, BASE_COUNTS.
  apply split_by_employees_at_most_all, make_dummy_funnel_nonneg.
Qed.

End Rounding.

End Dashboard.

(** ** Formatting *)

Lemma frac_digits_length (k : nat) (r : Z) : String.length (frac_digits k r) = k.
Proof.
  induction k as [|k IH]; [reflexivity|].
  cbn [frac_digits String.length]. rewrite IH. reflexivity.
Qed.

Lemma string_app_assoc (a b c : string) : (a ++ b) ++ c = a ++ b ++ c.
Proof.
  induction a as [|ch a IH]; [reflexivity|].
  change (String ch ((a ++ b) ++ c) = String ch (a ++ b ++ c)).
  rewrite IH. reflexivity.
Qed.

(** Rounding half to even moves a value by at most one half. *)
Lemma round_half_even_near (q : Q) :
  (inject_Z (round_half_even q) - (1 # 2) <= q
   <= inject_Z (round_half_even q) + (1 # 2))%Q.
Proof.
  unfold round_half_even.
  pose proof (Qfloor_le q) as Hlo. pose proof (Qlt_floor q) as Hhi.
  rewrite inject_Z_plus in Hhi. change (inject_Z 1) with 1%Q in Hhi.
  set (f := Qfloor q) in *.
  destruct (Qcompare_spec (q - inject_Z f) (1 # 2)) as [E | E | E].
  - destruct (Z.even f);
      [|rewrite inject_Z_plus; change (inject_Z 1) with 1%Q]; lra.
  - lra.
  - rewrite inject_Z_plus. change (inject_Z 1) with 1%Q. lra.
Qed.

(** The shape of a fixed-point text with at least one decimal: an optional
    minus sign, the integer part, a point, and exactly the requested number of
    digits. *)
Lemma fmt_fixed_shape (k : nat) (x : Q) :
  exists sign ip fp : string,
    fmt_fixed (S k) x = sign ++ ip ++ "." ++ fp /\
    (sign = "" \/ sign = "-") /\
    String.length fp = S k.
Proof.
  unfold fmt_fixed.
  eexists _, _, _. split; [reflexivity|]. split.
  - destruct (Qle_bool 0 x); [left | right]; reflexivity.
  - apply frac_digits_length.
Qed.

(** C9.  [fmt_int] formats an integer of at least 1,000,000 as its quotient
    by 1,000,000 with exactly two decimals and the suffix M, an integer from
    1,000 up to 999,999 as its quotient by 1,000 with exactly one decimal and
    the suffix K, and a smaller integer as its decimal text; with binary64
    division, 999 gives 999, 1500 gives 1.5K and 2300000 gives 2.30M. *)
Theorem fmt_int_formats :
  (forall (rnd : Q -> Q) (n : Z),
      1000000 <= n ->
      fmt_int rnd n = fmt_fixed 2 (int_truediv rnd n 1000000) ++ "M" /\
      exists sign ip fp : string,
        fmt_int rnd n = sign ++ ip ++ "." ++ fp ++ "M" /\
        String.length fp = 2%nat) /\
  (forall (rnd : Q -> Q) (n : Z),
      1000 <= n < 1000000 ->
      fmt_int rnd n = fmt_fixed 1 (int_truediv rnd n 1000) ++ "K" /\
      exists sign ip fp : string,
        fmt_int rnd n = sign ++ ip ++ "." ++ fp ++ "K" /\
        String.length fp = 1%nat) /\
  (forall (rnd : Q -> Q) (n : Z), n < 1000 -> fmt_int rnd n = str n) /\
  fmt_int binary64 999 = "999" /\
  fmt_int binary64 1500 = "1.5K" /\
  fmt_int binary64 2300000 = "2.30M".
Proof.
  split; [|split; [|split; [|repeat split; vm_compute; reflexivity]]].
  - intros rnd n Hn. unfold fmt_int.
    replace (1000000 <=? n) with true by (symmetry; apply Z.leb_le; exact Hn).
    split; [reflexivity|].
    destruct (fmt_fixed_shape 1 (int_truediv rnd n 1000000))
      as (sign & ip & fp & -> & _ & Hfp).
    exists sign, ip, fp. split; [|exact Hfp].
    rewrite !string_app_assoc. reflexivity.
  - intros rnd n [Hlo Hhi]. unfold fmt_int.
    replace (1000000 <=? n) with false by (symmetry; apply Z.leb_gt; exact Hhi).
    replace (1000 <=? n) with true by (symmetry; apply Z.leb_le; exact Hlo).
    split; [reflexivity|].
    destruct (fmt_fixed_shape 0 (int_truediv rnd n 1000))
      as (sign & ip & fp & -> & _ & Hfp).
    exists sign, ip, fp. split; [|exact Hfp].
    rewrite !string_app_assoc. reflexivity.
  - intros rnd n Hn. unfold fmt_int.
    replace (1000000 <=? n) with false by (symmetry; apply Z.leb_gt; lia).
    replace (1000 <=? n) with false by (symmetry; apply Z.leb_gt; exact Hn).
    reflexivity.
Qed.

(** ** Binary64 rounding is an admissible rounding *)

Lemma round_half_even_comp (q1 q2 : Q) :
  (q1 == q2)%Q -> round_half_even q1 = round_half_even q2.
Proof.
  intros H. unfold round_half_even.
  rewrite (Qfloor_comp _ _ H).
  assert (Hc : (q1 - inject_Z (Qfloor q2) ?= 1 # 2)%Q
               = (q2 - inject_Z (Qfloor q2) ?= 1 # 2)%Q)
    by (apply Qcompare_comp; [rewrite H; reflexivity | reflexivity]).
  rewrite Hc. reflexivity.
Qed.

Lemma round_half_even_int (z : Z) : round_half_even (inject_Z z) = z.
Proof.
  unfold round_half_even. rewrite Qfloor_Z.
  assert (Hc : (inject_Z z - inject_Z z ?= 1 # 2)%Q = Lt).
  { rewrite <- Qlt_alt. lra. }
  rewrite Hc. reflexivity.
Qed.

Lemma round_half_even_mono (q1 q2 : Q) :
  (q1 <= q2)%Q -> round_half_even q1 <= round_half_even q2.
Proof.
  intros H.
  destruct (Z_le_gt_dec (round_half_even q1) (round_half_even q2)) as [|Hgt];
    [assumption|].
  pose proof (round_half_even_near q1) as [H1 _].
  pose proof (round_half_even_near q2) as [_ H2].
  assert (Hz : (inject_Z (round_half_even q2) + 1
                <= inject_Z (round_half_even q1))%Q).
  { change 1%Q with (inject_Z 1). rewrite <- inject_Z_plus, <- Zle_Qle. lia. }
  assert (Heq : (q1 == q2)%Q) by lra.
  rewrite (round_half_even_comp _ _ Heq). lia.
Qed.

(** Powers of two. *)

Lemma two_neq_0 : ~ (2 == 0)%Q.
Proof. intros H. discriminate H. Qed.

Lemma p2_pos (e : Z) : (0 < 2 ^ e)%Q.
Proof. apply Qpower_0_lt. reflexivity. Qed.

Lemma p2_plus (a b : Z) : (2 ^ (a + b) == 2 ^ a * 2 ^ b)%Q.
Proof. apply Qpower_plus, two_neq_0. Qed.

Lemma p2_cancel (e : Z) : (2 ^ (- e) * 2 ^ e == 1)%Q.
Proof. rewrite <- p2_plus. replace (- e + e) with 0 by lia. reflexivity. Qed.

Lemma p2_succ (e : Z) : (2 ^ (e + 1) == 2 * 2 ^ e)%Q.
Proof. rewrite p2_plus. change (2 ^ 1)%Q with 2%Q. ring. Qed.

Lemma p2_le (a b : Z) : a <= b -> (2 ^ a <= 2 ^ b)%Q.
Proof. intros H. apply Qpower_le_compat_l; [exact H | lra]. Qed.

Lemma p2_lt_inv (a b : Z) : (2 ^ a < 2 ^ b)%Q -> a < b.
Proof. intros H. apply (Qpower_lt_compat_l_inv 2); [exact H | lra]. Qed.

Lemma p2_inject (n : Z) : 0 <= n -> (inject_Z (2 ^ n) == 2 ^ n)%Q.
Proof. intros H. apply (Zpower_Qpower 2 n H). Qed.

(** [x * 2 ^ (- e)] against a bound, moved to the other side. *)
Lemma scale_le_l (x b : Q) (e : Z) :
  (b * 2 ^ e <= x)%Q <-> (b <= x * 2 ^ (- e))%Q.
Proof.
  pose proof (p2_pos e) as He. pose proof (p2_pos (- e)) as Hn.
  pose proof (p2_cancel e) as Hc.
  split; intros H.
  - assert (H' : (b * 2 ^ e * 2 ^ (- e) <= x * 2 ^ (- e))%Q)
      by (apply Qmult_le_compat_r; lra).
    assert (E : (b * 2 ^ e * 2 ^ (- e) == b * (2 ^ (- e) * 2 ^ e))%Q) by ring.
    rewrite E, Hc in H'. lra.
  - assert (H' : (b * 2 ^ e <= x * 2 ^ (- e) * 2 ^ e)%Q)
      by (apply Qmult_le_compat_r; lra).
    assert (E : (x * 2 ^ (- e) * 2 ^ e == x * (2 ^ (- e) * 2 ^ e))%Q) by ring.
    rewrite E, Hc in H'. lra.
Qed.

Lemma scale_lt_r (x b : Q) (e : Z) :
  (x < b * 2 ^ e)%Q <-> (x * 2 ^ (- e) < b)%Q.
Proof.
  pose proof (p2_pos e) as He. pose proof (p2_pos (- e)) as Hn.
  pose proof (p2_cancel e) as Hc.
  split; intros H.
  - assert (H' : (x * 2 ^ (- e) < b * 2 ^ e * 2 ^ (- e))%Q)
      by (apply Qmult_lt_compat_r; lra).
    assert (E : (b * 2 ^ e * 2 ^ (- e) == b * (2 ^ (- e) * 2 ^ e))%Q) by ring.
    rewrite E, Hc in H'. lra.
  - assert (H' : (x * 2 ^ (- e) * 2 ^ e < b * 2 ^ e)%Q)
      by (apply Qmult_lt_compat_r; lra).
    assert (E : (x * 2 ^ (- e) * 2 ^ e == x * (2 ^ (- e) * 2 ^ e))%Q) by ring.
    rewrite E, Hc in H'. lra.
Qed.

Lemma log2_bounds_Q (n : positive) :
  (2 ^ Z.log2 (Zpos n) <= inject_Z (Zpos n))%Q /\
  (inject_Z (Zpos n) < 2 * 2 ^ Z.log2 (Zpos n))%Q.
Proof.
  pose proof (Z.log2_spec (Zpos n) ltac:(lia)) as [Hlo Hhi].
  pose proof (Z.log2_nonneg (Zpos n)) as Hnn.
  rewrite <- p2_succ.
  rewrite <- (p2_inject (Z.log2 (Zpos n))) by lia.
  replace (Z.log2 (Z.pos n) + 1) with (Z.succ (Z.log2 (Z.pos n))) by lia.
  rewrite <- (p2_inject (Z.succ (Z.log2 (Zpos n)))) by lia.
  split; [rewrite <- Zle_Qle | rewrite <- Zlt_Qlt]; assumption.
Qed.

Lemma b64_exponent_binade (a : Q) :
  (0 < a)%Q -> in_binade a (b64_exponent a).
Proof.
  intros Ha. destruct a as [n d].
  assert (Hn : 0 < n) by (unfold Qlt in Ha; cbn in Ha; lia).
  destruct n as [|n|n]; try lia. clear Hn.
  unfold b64_exponent. cbn [Qnum Qden].
  pose proof (log2_bounds_Q n) as [Hn1 Hn2].
  pose proof (log2_bounds_Q d) as [Hd1 Hd2].
  set (ln := Z.log2 (Zpos n)) in *. set (ld := Z.log2 (Zpos d)) in *.
  set (a := (Zpos n # d)%Q) in *.
  assert (Had : (a * inject_Z (Zpos d) == inject_Z (Zpos n))%Q).
  { unfold a, Qeq, Qmult, inject_Z. cbn. lia. }
  pose proof (p2_pos ln) as Pln. pose proof (p2_pos ld) as Pld.
  set (e0 := ln - ld - 52).
  (* a * 2^ld <= n < 2 * 2^ln  and  2^ln <= n < a * 2 * 2^ld *)
  assert (Hup : (a * 2 ^ ld < 2 * 2 ^ ln)%Q).
  { apply Qle_lt_trans with (a * inject_Z (Zpos d))%Q; [|lra].
    apply Qmult_le_l; lra. }
  assert (Hdn : (2 ^ ln < a * (2 * 2 ^ ld))%Q).
  { apply Qle_lt_trans with (a * inject_Z (Zpos d))%Q; [lra|].
    apply Qmult_lt_l; lra. }
  assert (Eln : (2 ^ ln == 2 ^ 52 * 2 ^ e0 * 2 ^ ld)%Q).
  { rewrite <- !p2_plus. unfold e0. replace (52 + (ln - ld - 52) + ld) with ln by lia.
    reflexivity. }
  pose proof (p2_pos e0) as Pe0.
  (* hence 2^51 * 2^e0 < a < 2^53 * 2^e0 *)
  assert (Hlo0 : (2 ^ 51 * 2 ^ e0 < a)%Q).
  { rewrite Eln in Hdn.
    assert (H : (2 ^ 52 * 2 ^ e0 * 2 ^ ld < (2 * a) * 2 ^ ld)%Q) by lra.
    apply Qmult_lt_r in H; [|exact Pld].
    change (2 ^ 52)%Q with (2 * 2 ^ 51)%Q in H. lra. }
  assert (Hhi0 : (a < 2 ^ 53 * 2 ^ e0)%Q).
  { rewrite Eln in Hup.
    assert (H : (a * 2 ^ ld < (2 ^ 53 * 2 ^ e0) * 2 ^ ld)%Q).
    { change (2 ^ 53)%Q with (2 * 2 ^ 52)%Q. lra. }
    apply Qmult_lt_r in H; [exact H | exact Pld]. }
  destruct (Qle_bool (2 ^ 52) (a * 2 ^ (- e0))) eqn:E.
  - apply Qle_bool_iff in E. apply (scale_le_l a (2 ^ 52) e0) in E.
    split; assumption.
  - assert (Hlt : (a * 2 ^ (- e0) < 2 ^ 52)%Q).
    { apply Qnot_le_lt. intros H. apply Qle_bool_iff in H. congruence. }
    apply (scale_lt_r a (2 ^ 52) e0) in Hlt.
    assert (Ee : (2 ^ e0 == 2 * 2 ^ (e0 - 1))%Q).
    { rewrite <- p2_succ. replace (e0 - 1 + 1) with e0 by lia. reflexivity. }
    split.
    + change (2 ^ 52)%Q with (2 * 2 ^ 51)%Q. rewrite Ee in Hlo0. lra.
    + change (2 ^ 53)%Q with (2 * 2 ^ 52)%Q. rewrite Ee in Hlt. lra.
Qed.

Lemma in_binade_le (a b : Q) (ea eb : Z) :
  in_binade a ea -> in_binade b eb -> (a <= b)%Q -> ea <= eb.
Proof.
  intros [Ha _] [_ Hb] Hab.
  destruct (Z_le_gt_dec ea eb) as [|Hgt]; [assumption|].
  assert (H : (2 ^ (eb + 1) <= 2 ^ ea)%Q) by (apply p2_le; lia).
  rewrite p2_succ in H.
  pose proof (p2_pos eb). pose proof (p2_pos ea).
  change (2 ^ 53)%Q with (2 * 2 ^ 52)%Q in Hb.
  assert (H52 : (0 < 2 ^ 52)%Q) by reflexivity.
  assert (Hm : (2 ^ 52 * (2 * 2 ^ eb) <= 2 ^ 52 * 2 ^ ea)%Q)
    by (apply Qmult_le_l; assumption).
  lra.
Qed.

Lemma in_binade_unique (a b : Q) (ea eb : Z) :
  in_binade a ea -> in_binade b eb -> (a == b)%Q -> ea = eb.
Proof.
  intros Ha Hb Hab.
  pose proof (in_binade_le a b ea eb Ha Hb ltac:(lra)).
  pose proof (in_binade_le b a eb ea Hb Ha ltac:(lra)).
  lia.
Qed.

Lemma b64_exponent_comp (a b : Q) :
  (0 < a)%Q -> (a == b)%Q -> b64_exponent a = b64_exponent b.
Proof.
  intros Ha Hab.
  apply (in_binade_unique a b); [| |exact Hab];
    apply b64_exponent_binade; lra.
Qed.

(** The scaled significand and its rounding. *)
Lemma scaled_range (a : Q) (e : Z) :
  in_binade a e -> (2 ^ 52 <= a * 2 ^ (- e) < 2 ^ 53)%Q.
Proof.
  intros [Hlo Hhi]. split.
  - exact (proj1 (scale_le_l a (2 ^ 52) e) Hlo).
  - exact (proj1 (scale_lt_r a (2 ^ 53) e) Hhi).
Qed.

Lemma significand_range (a : Q) (e : Z) :
  in_binade a e ->
  2 ^ 52 <= round_half_even (a * 2 ^ (- e)) <= 2 ^ 53.
Proof.
  intros H. pose proof (scaled_range a e H) as [Hlo Hhi].
  split.
  - rewrite <- (round_half_even_int (2 ^ 52)).
    apply round_half_even_mono. exact Hlo.
  - rewrite <- (round_half_even_int (2 ^ 53)).
    apply round_half_even_mono. apply Qlt_le_weak. exact Hhi.
Qed.

Lemma b64_magnitude_eq (a : Q) (e : Z) :
  (0 < a)%Q -> in_binade a e ->
  b64_magnitude a = (inject_Z (round_half_even (a * 2 ^ (- e))) * 2 ^ e)%Q.
Proof.
  intros Ha He. unfold b64_magnitude.
  rewrite (in_binade_unique a a (b64_exponent a) e
             (b64_exponent_binade a Ha) He ltac:(reflexivity)).
  reflexivity.
Qed.

Lemma b64_magnitude_comp (a b : Q) :
  (0 < a)%Q -> (a == b)%Q -> (b64_magnitude a == b64_magnitude b)%Q.
Proof.
  intros Ha Hab. unfold b64_magnitude.
  rewrite (b64_exponent_comp a b Ha Hab).
  rewrite (round_half_even_comp (a * 2 ^ (- b64_exponent b))
             (b * 2 ^ (- b64_exponent b))) by (rewrite Hab; reflexivity).
  reflexivity.
Qed.

Lemma b64_magnitude_bounds (a : Q) (e : Z) :
  (0 < a)%Q -> in_binade a e ->
  (2 ^ 52 * 2 ^ e <= b64_magnitude a <= 2 ^ 53 * 2 ^ e)%Q.
Proof.
  intros Ha He. rewrite (b64_magnitude_eq a e Ha He).
  pose proof (significand_range a e He) as [Hlo Hhi].
  pose proof (p2_pos e) as Pe.
  split; apply Qmult_le_compat_r; try lra.
  - change (2 ^ 52)%Q with (inject_Z (2 ^ 52)). rewrite <- Zle_Qle. exact Hlo.
  - change (2 ^ 53)%Q with (inject_Z (2 ^ 53)). rewrite <- Zle_Qle. exact Hhi.
Qed.

Lemma b64_magnitude_pos (a : Q) : (0 < a)%Q -> (0 < b64_magnitude a)%Q.
Proof.
  intros Ha.
  pose proof (b64_magnitude_bounds a _ Ha (b64_exponent_binade a Ha)) as [H _].
  pose proof (p2_pos (b64_exponent a)).
  assert (H52 : (0 < 2 ^ 52)%Q) by reflexivity.
  assert ((0 < 2 ^ 52 * 2 ^ b64_exponent a)%Q)
    by (apply Qmult_lt_0_compat; assumption).
  lra.
Qed.

Lemma b64_magnitude_mono (a b : Q) :
  (0 < a)%Q -> (a <= b)%Q -> (b64_magnitude a <= b64_magnitude b)%Q.
Proof.
  intros Ha Hab. assert (Hb : (0 < b)%Q) by lra.
  pose proof (b64_exponent_binade a Ha) as Ba.
  pose proof (b64_exponent_binade b Hb) as Bb.
  set (ea := b64_exponent a) in *. set (eb := b64_exponent b) in *.
  pose proof (in_binade_le a b ea eb Ba Bb Hab) as Hle.
  destruct (Z.eq_dec ea eb) as [E|E].
  - rewrite (b64_magnitude_eq a ea Ha Ba), (b64_magnitude_eq b eb Hb Bb).
    rewrite E. pose proof (p2_pos eb).
    apply Qmult_le_compat_r; [|lra].
    rewrite <- Zle_Qle. apply round_half_even_mono.
    apply Qmult_le_compat_r; [exact Hab|]. pose proof (p2_pos (- eb)). lra.
  - pose proof (b64_magnitude_bounds a ea Ha Ba) as [_ Hua].
    pose proof (b64_magnitude_bounds b eb Hb Bb) as [Hlb _].
    assert (H : (2 ^ (ea + 1) <= 2 ^ eb)%Q) by (apply p2_le; lia).
    rewrite p2_succ in H.
    change (2 ^ 53)%Q with (2 ^ 52 * 2)%Q in Hua.
    assert (H52 : (0 < 2 ^ 52)%Q) by reflexivity.
    assert (H1 : (2 ^ 52 * (2 * 2 ^ ea) <= 2 ^ 52 * 2 ^ eb)%Q)
      by (apply Qmult_le_l; assumption).
    lra.
Qed.

Lemma b64_magnitude_near (a : Q) (e : Z) :
  (0 < a)%Q -> in_binade a e ->
  (- (2 ^ e / 2) <= b64_magnitude a - a <= 2 ^ e / 2)%Q.
Proof.
  intros Ha He. rewrite (b64_magnitude_eq a e Ha He).
  pose proof (round_half_even_near (a * 2 ^ (- e))) as [Hlo Hhi].
  set (m := inject_Z (round_half_even (a * 2 ^ (- e)))) in *.
  pose proof (p2_pos e) as Pe. pose proof (p2_cancel e) as Hc.
  assert (Ea : (a == a * 2 ^ (- e) * 2 ^ e)%Q).
  { assert (E : (a * 2 ^ (- e) * 2 ^ e == a * (2 ^ (- e) * 2 ^ e))%Q) by ring.
    rewrite E, Hc. ring. }
  set (s := (a * 2 ^ (- e))%Q) in *.
  assert (H1 : ((m - (1 # 2)) * 2 ^ e <= s * 2 ^ e)%Q)
    by (apply Qmult_le_compat_r; lra).
  assert (H2 : (s * 2 ^ e <= (m + (1 # 2)) * 2 ^ e)%Q)
    by (apply Qmult_le_compat_r; lra).
  assert (E1 : ((m - (1 # 2)) * 2 ^ e == m * 2 ^ e - 2 ^ e / 2)%Q) by field.
  assert (E2 : ((m + (1 # 2)) * 2 ^ e == m * 2 ^ e + 2 ^ e / 2)%Q) by field.
  rewrite E1 in H1. rewrite E2 in H2. rewrite <- Ea in H1, H2. lra.
Qed.

(** The sign cases of [binary64]. *)

Lemma binary64_pos (q : Q) : (0 < q)%Q -> (binary64 q == b64_magnitude q)%Q.
Proof.
  intros Hq. destruct q as [n d].
  assert (Hn : 0 < n) by (unfold Qlt in Hq; cbn in Hq; lia).
  destruct n as [|n|n]; try lia.
  unfold binary64. cbn [Qnum].
  replace (Qle_bool 0 (Z.pos n # d)) with true
    by (symmetry; apply Qle_bool_iff; lra).
  rewrite Qred_correct. reflexivity.
Qed.

Lemma binary64_neg (q : Q) :
  (q < 0)%Q -> (binary64 q == - b64_magnitude (- q))%Q.
Proof.
  intros Hq. destruct q as [n d].
  assert (Hn : n < 0) by (unfold Qlt in Hq; cbn in Hq; lia).
  destruct n as [|n|n]; try lia.
  unfold binary64. cbn [Qnum].
  replace (Qle_bool 0 (Z.neg n # d)) with false.
  - rewrite Qred_correct. reflexivity.
  - symmetry. apply not_true_iff_false. intros H.
    apply Qle_bool_iff in H. lra.
Qed.

Lemma binary64_zero (q : Q) : (q == 0)%Q -> binary64 q = 0%Q.
Proof.
  intros Hq. destruct q as [n d].
  assert (Hn : n = 0) by (unfold Qeq in Hq; cbn in Hq; lia).
  subst n. reflexivity.
Qed.

Lemma binary64_mono (x y : Q) : (x <= y)%Q -> (binary64 x <= binary64 y)%Q.
Proof.
  intros Hxy.
  destruct (Q_dec x 0) as [[Hx | Hx] | Hx]; destruct (Q_dec y 0) as [[Hy | Hy] | Hy];
    try lra.
  - rewrite (binary64_neg x Hx), (binary64_neg y Hy).
    pose proof (b64_magnitude_mono (- y) (- x) ltac:(lra) ltac:(lra)). lra.
  - rewrite (binary64_neg x Hx), (binary64_pos y Hy).
    pose proof (b64_magnitude_pos (- x) ltac:(lra)).
    pose proof (b64_magnitude_pos y Hy). lra.
  - rewrite (binary64_neg x Hx), (binary64_zero y Hy).
    pose proof (b64_magnitude_pos (- x) ltac:(lra)). lra.
  - rewrite (binary64_pos x Hx), (binary64_pos y Hy).
    apply b64_magnitude_mono; assumption.
  - rewrite (binary64_zero x Hx), (binary64_pos y Hy).
    pose proof (b64_magnitude_pos y Hy). lra.
  - rewrite (binary64_zero x Hx), (binary64_zero y Hy). lra.
Qed.

Lemma b64_magnitude_near_small (a : Q) :
  (0 < a <= 4)%Q ->
  (- (1 # 1000000) <= b64_magnitude a - a <= 1 # 1000000)%Q.
Proof.
  intros [Ha H4].
  pose proof (b64_exponent_binade a Ha) as B.
  pose proof (b64_magnitude_near a _ Ha B) as Hn.
  destruct B as [Hlo _].
  set (p := (2 ^ b64_exponent a)%Q) in *.
  change (2 ^ 52)%Q with 4503599627370496%Q in Hlo.
  assert (Ed : (p / 2 == p * (1 # 2))%Q) by field.
  rewrite Ed in Hn. lra.
Qed.

Lemma binary64_near (x : Q) :
  (-4 <= x <= 4)%Q ->
  (- (1 # 1000000) <= binary64 x - x <= 1 # 1000000)%Q.
Proof.
  intros [Hlo Hhi].
  destruct (Q_dec x 0) as [[Hx | Hx] | Hx].
  - rewrite (binary64_neg x Hx).
    pose proof (b64_magnitude_near_small (- x) ltac:(lra)). lra.
  - rewrite (binary64_pos x Hx).
    pose proof (b64_magnitude_near_small x ltac:(lra)). lra.
  - rewrite (binary64_zero x Hx). lra.
Qed.

(** Integers of at most 53 bits are representable. *)

Lemma b64_magnitude_int (z : Z) :
  0 < z <= 2 ^ 53 -> (b64_magnitude (inject_Z z) == inject_Z z)%Q.
Proof.
  intros [Hz0 Hz].
  assert (Ha : (0 < inject_Z z)%Q)
    by (change 0%Q with (inject_Z 0); rewrite <- Zlt_Qlt; exact Hz0).
  pose proof (b64_exponent_binade (inject_Z z) Ha) as B.
  set (e := b64_exponent (inject_Z z)) in *.
  rewrite (b64_magnitude_eq _ e Ha B).
  assert (Hzq : (inject_Z z <= 2 ^ 53)%Q)
    by (change (2 ^ 53)%Q with (inject_Z (2 ^ 53)); rewrite <- Zle_Qle; exact Hz).
  destruct (Z_le_gt_dec e 0) as [He | He].
  - (* the scaled value is the integer z * 2 ^ (- e) *)
    assert (Es : (inject_Z z * 2 ^ (- e) == inject_Z (z * 2 ^ (- e)))%Q).
    { rewrite inject_Z_mult, (p2_inject (- e)) by lia. reflexivity. }
    rewrite (round_half_even_comp _ _ Es), round_half_even_int.
    rewrite inject_Z_mult, (p2_inject (- e)) by lia.
    pose proof (p2_cancel e) as Hc.
    assert (E : (inject_Z z * 2 ^ (- e) * 2 ^ e
                 == inject_Z z * (2 ^ (- e) * 2 ^ e))%Q) by ring.
    rewrite E, Hc. ring.
  - (* e >= 1 forces z = 2 ^ 53 and e = 1 *)
    destruct B as [Hlo _].
    assert (H1 : (2 ^ 1 <= 2 ^ e)%Q) by (apply p2_le; lia).
    change (2 ^ 1)%Q with 2%Q in H1.
    change (2 ^ 52)%Q with 4503599627370496%Q in Hlo.
    change (2 ^ 53)%Q with 9007199254740992%Q in Hzq.
    assert (He1 : (2 ^ e <= 2)%Q) by lra.
    assert (Ee : e = 1).
    { destruct (Z.eq_dec e 1) as [|Hne]; [assumption|].
      assert (H2 : (2 ^ 2 <= 2 ^ e)%Q) by (apply p2_le; lia).
      change (2 ^ 2)%Q with 4%Q in H2. lra. }
    rewrite Ee in *. change (2 ^ 1)%Q with 2%Q in *.
    assert (Ez : z = 2 ^ 53).
    { assert (Hq : (9007199254740992 <= inject_Z z)%Q) by lra.
      change 9007199254740992%Q with (inject_Z (2 ^ 53)) in Hq.
      rewrite <- Zle_Qle in Hq. lia. }
    subst z. reflexivity.
Qed.

Lemma binary64_int (z : Z) :
  Z.abs z <= 2 ^ 53 -> (binary64 (inject_Z z) == inject_Z z)%Q.
Proof.
  intros Hz. destruct (Z.lt_trichotomy z 0) as [Hneg | [-> | Hpos]].
  - assert (Hq : (inject_Z z < 0)%Q)
      by (change 0%Q with (inject_Z 0); rewrite <- Zlt_Qlt; exact Hneg).
    rewrite (binary64_neg _ Hq).
    assert (E : (- inject_Z z == inject_Z (- z))%Q)
      by (rewrite inject_Z_opp; reflexivity).
    assert (Hp : (0 < - inject_Z z)%Q) by lra.
    rewrite (b64_magnitude_comp _ _ Hp E).
    rewrite b64_magnitude_int by lia. rewrite inject_Z_opp. ring.
  - reflexivity.
  - assert (Hq : (0 < inject_Z z)%Q)
      by (change 0%Q with (inject_Z 0); rewrite <- Zlt_Qlt; exact Hpos).
    rewrite (binary64_pos _ Hq). apply b64_magnitude_int. lia.
Qed.

Lemma binary64_rounding_ok : rounding_ok binary64.
Proof.
  split.
  - exact binary64_mono.
  - exact binary64_int.
  - exact binary64_near.
Qed.

(** ** The click callback on every input *)

Lemma string_app_nil_r (s : string) : s ++ "" = s.
Proof.
  induction s as [|c s IH]; [reflexivity|].
  change (String c (s ++ "") = String c s). rewrite IH. reflexivity.
Qed.

Lemma has_char_app (c : ascii) (a b : string) :
  has_char c (a ++ b) = has_char c a || has_char c b.
Proof.
  induction a as [|x a IH]; [reflexivity|].
  change (has_char c (String x (a ++ b))
          = has_char c (String x a) || has_char c b).
  cbn [has_char]. rewrite IH. apply orb_assoc.
Qed.

Lemma prefix_head_differs (c x : ascii) (sep' s : string) :
  Ascii.eqb c x = false -> String.prefix (String c sep') (String x s) = false.
Proof.
  intros H. cbn [String.prefix].
  destruct (ascii_dec c x) as [->|]; [|reflexivity].
  rewrite Ascii.eqb_refl in H. discriminate.
Qed.

(** The first piece of a split starts with what was read so far; in
    particular a split is never empty. *)
Lemma split_aux_first (sep : string) (skip : nat) (cur s : string) :
  exists (z : string) (l : list string),
    split_aux sep skip cur s = (cur ++ z) :: l.
Proof.
  revert skip cur. induction s as [|c s IH]; intros skip cur.
  - exists "", []. cbn [split_aux]. rewrite string_app_nil_r. reflexivity.
  - cbn [split_aux]. destruct skip as [|n].
    + destruct (String.prefix sep (String c s)).
      * exists "". eexists. rewrite string_app_nil_r. reflexivity.
      * destruct (IH 0%nat (cur ++ String c "")) as (z & l & ->).
        exists (String c z), l. rewrite string_app_assoc. reflexivity.
    + apply IH.
Qed.

(** Where the separator occurs, the split has at least two pieces. *)
Lemma split_aux_contains (sep cur s : string) :
  str_contains sep s = true -> s <> "" ->
  exists (a b : string) (l : list string),
    split_aux sep 0 cur s = a :: b :: l.
Proof.
  revert cur. induction s as [|c s IH]; intros cur Hc Hs; [congruence|].
  cbn [split_aux]. cbn [str_contains] in Hc.
  destruct (String.prefix sep (String c s)) eqn:E.
  - destruct (split_aux_first sep (String.length sep - 1) "" s) as (z & l & ->).
    eauto.
  - cbn [orb] in Hc. destruct s as [|c' s'].
    + cbn [str_contains] in Hc. destruct sep; cbn in Hc, E; congruence.
    + apply IH; [exact Hc | discriminate].
Qed.

(** The first piece of a split on one character does not contain it. *)
Lemma split_char_first (c : ascii) (cur s : string) :
  has_char c cur = false ->
  exists (a : string) (l : list string),
    split_aux (String c "") 0 cur s = a :: l /\ has_char c a = false.
Proof.
  revert cur. induction s as [|x s IH]; intros cur Hcur.
  - exists cur, []. split; [reflexivity | exact Hcur].
  - cbn [split_aux]. destruct (Ascii.eqb c x) eqn:E.
    + apply Ascii.eqb_eq in E. subst x.
      replace (String.prefix (String c "") (String c s)) with true.
      * eexists _, _. split; [reflexivity | exact Hcur].
      * cbn [String.prefix]. destruct (ascii_dec c c); [|congruence].
        destruct s; reflexivity.
    + rewrite (prefix_head_differs c x "" s E).
      apply IH. rewrite has_char_app, Hcur. cbn [has_char]. rewrite E.
      reflexivity.
Qed.

(** X5.  [kpi_click] returns a value for every list of triggers (the
    indexing of the two splits never goes out of range), so no sequence of
    user actions fails.  With no trigger it returns the overview tab and
    "impressions"; with a trigger it always returns the details tab, for
    which [toggle_views] shows the details view and hides the overview; a
    trigger whose [prop_id] lacks the marker gives "impressions"; and the
    KPI it returns never contains a double quote. *)
Theorem kpi_click_total :
  (forall triggered : list string,
      exists kpi tab : string,
        kpi_click triggered = Ok (kpi, tab) /\
        has_char "034"%char kpi = false /\
        (triggered = [] -> kpi = "impressions" /\ tab = "tab-overview") /\
        (triggered <> [] ->
         tab = "tab-details" /\ toggle_views tab = (false, true)) /\
        (forall (p : string) (rest : list string),
            triggered = p :: rest -> str_contains KPI_MARK p = false ->
            kpi = "impressions")) /\
  (forall (s : ViewState) (evs : list Event),
      exists s' : ViewState, run s evs = Ok s').
Proof.
  assert (Hk : forall triggered : list string,
      exists kpi tab : string,
        kpi_click triggered = Ok (kpi, tab) /\
        has_char "034"%char kpi = false /\
        (triggered = [] -> kpi = "impressions" /\ tab = "tab-overview") /\
        (triggered <> [] ->
         tab = "tab-details" /\ toggle_views tab = (false, true)) /\
        (forall (p : string) (rest : list string),
            triggered = p :: rest -> str_contains KPI_MARK p = false ->
            kpi = "impressions")).
  { intros [|p rest].
    - exists "impressions", "tab-overview".
      repeat split; try reflexivity; congruence.
    - unfold kpi_click. destruct (str_contains KPI_MARK p) eqn:E.
      + assert (Hp : p <> "") by (intros ->; discriminate E).
        destruct (split_aux_contains KPI_MARK "" p E Hp) as (a & b & l & Hs).
        unfold py_split at 1. rewrite Hs.
        cbn [index lookup list_lookup rbind].
        destruct (split_char_first "034"%char "" b eq_refl)
          as (kpi & l' & Hs' & Hq).
        unfold py_split, dquote. rewrite Hs'.
        cbn [index lookup list_lookup rbind].
        exists kpi, "tab-details".
        repeat split; try reflexivity; try assumption; try congruence.
      + exists "impressions", "tab-details".
        repeat split; try reflexivity; congruence. }
  split; [exact Hk|].
  intros s evs. revert s. induction evs as [|ev evs IH]; intros s.
  - exists s. reflexivity.
  - cbn [run]. destruct ev as [e | t | triggered]; cbn [step rbind].
    + apply IH.
    + apply IH.
    + destruct (Hk triggered) as (kpi & tab & -> & _). cbn [rbind]. apply IH.
Qed.

(** Reading a quote-free text [k] that is followed by a quote: a separator
    that starts with a quote cannot begin inside [k], so the first piece is
    [cur ++ k], possibly followed by text that starts with the quote. *)
Lemma split_aux_quote_free (c : ascii) (sep' cur k t : string) :
  has_char c k = false ->
  exists (y : string) (l : list string),
    split_aux (String c sep') 0 cur (k ++ String c t) = (cur ++ k ++ y) :: l /\
    (y = "" \/ exists y' : string, y = String c y').
Proof.
  revert cur. induction k as [|x k IH]; intros cur Hk.
  - change ("" ++ String c t) with (String c t). cbn [split_aux].
    destruct (String.prefix (String c sep') (String c t)).
    + exists "". eexists. split; [|left; reflexivity].
      change ("" ++ "") with "". rewrite string_app_nil_r. reflexivity.
    + destruct (split_aux_first (String c sep') 0 (cur ++ String c "") t)
        as (z & l & ->).
      exists (String c z), l. split; [|right; eauto].
      change ("" ++ String c z) with (String c z).
      rewrite string_app_assoc. reflexivity.
  - cbn [has_char] in Hk. apply orb_false_iff in Hk as [Hx Hk].
    change (String x k ++ String c t) with (String x (k ++ String c t)).
    cbn [split_aux]. rewrite (prefix_head_differs c x sep' _ Hx).
    destruct (IH (cur ++ String x "") Hk) as (y & l & -> & Hy).
    exists y, l. split; [|exact Hy].
    rewrite string_app_assoc. reflexivity.
Qed.

Lemma split_char_quote_free (c : ascii) (cur k y : string) :
  has_char c k = false ->
  y = "" \/ (exists y' : string, y = String c y') ->
  exists l : list string,
    split_aux (String c "") 0 cur (k ++ y) = (cur ++ k) :: l.
Proof.
  revert cur. induction k as [|x k IH]; intros cur Hk Hy.
  - change ("" ++ y) with y. rewrite string_app_nil_r.
    destruct Hy as [-> | [y' ->]].
    + exists []. reflexivity.
    + cbn [split_aux].
      replace (String.prefix (String c "") (String c y')) with true.
      * eexists. reflexivity.
      * cbn [String.prefix]. destruct (ascii_dec c c); [|congruence].
        destruct y'; reflexivity.
  - cbn [has_char] in Hk. apply orb_false_iff in Hk as [Hx Hk].
    change (String x k ++ y) with (String x (k ++ y)).
    cbn [split_aux]. rewrite (prefix_head_differs c x "" _ Hx).
    destruct (IH (cur ++ String x "") Hk Hy) as [l ->].
    exists l. rewrite string_app_assoc. reflexivity.
Qed.

Lemma prefix_app (a b : string) : String.prefix a (a ++ b) = true.
Proof.
  induction a as [|x a IH].
  - destruct b; reflexivity.
  - change (String x a ++ b) with (String x (a ++ b)). cbn [String.prefix].
    destruct (ascii_dec x x); [exact IH | congruence].
Qed.

Lemma split_aux_skip (sep a cur rest : string) :
  split_aux sep (String.length a) cur (a ++ rest) = split_aux sep 0 cur rest.
Proof.
  induction a as [|x a IH]; [reflexivity|].
  change (String x a ++ rest) with (String x (a ++ rest)).
  cbn [String.length split_aux]. exact IH.
Qed.

(** At an occurrence of the separator the piece read so far ends and the
    reading resumes after the separator. *)
Lemma split_aux_at_sep (c : ascii) (sep' cur rest : string) :
  split_aux (String c sep') 0 cur (String c sep' ++ rest)
  = cur :: split_aux (String c sep') 0 "" rest.
Proof.
  change (String c sep' ++ rest) with (String c (sep' ++ rest)).
  cbn [split_aux].
  change (String c (sep' ++ rest)) with (String c sep' ++ rest).
  rewrite prefix_app. f_equal.
  cbn [String.length]. rewrite Nat.sub_1_r. cbn [Nat.pred].
  apply split_aux_skip.
Qed.

Lemma str_contains_prefix (sep s : string) :
  String.prefix sep s = true -> str_contains sep s = true.
Proof. intros H. destruct s; cbn [str_contains]; rewrite H; reflexivity. Qed.

Lemma json_plain_no_quote (k : string) :
  json_plain k = true -> has_char "034"%char k = false.
Proof.
  induction k as [|c k IH]; [reflexivity|].
  cbn [json_plain has_char]. intros H.
  apply andb_true_iff in H as [Hc Hk]. rewrite (IH Hk), orb_false_r.
  destruct (Ascii.eqb "034"%char c) eqn:E; [|reflexivity].
  apply Ascii.eqb_eq in E. subst c. discriminate Hc.
Qed.

(** X6.  Encoding a card identifier in a [prop_id] and reading it back with
    [kpi_click] is the identity: for every identifier [k] made of printable
    ASCII characters other than the double quote and the backslash, a click
    whose first trigger is the [prop_id] of the card [k] returns [k] and the
    details tab, whatever other triggers follow. *)
Theorem kpi_click_reads_card_id (k : string) (others : list string) :
  json_plain k = true ->
  kpi_click (card_prop_id k :: others) = Ok (k, "tab-details").
Proof.
  intros Hp. pose proof (json_plain_no_quote k Hp) as Hk.
  set (tail := ("," ++ dquote ++ "type" ++ dquote ++ ":" ++ dquote ++ "kpi"
                ++ dquote ++ "}.n_clicks")%string).
  assert (Eid : card_prop_id k
                = String "{" (KPI_MARK ++ k ++ String "034" tail)) by reflexivity.
  assert (Hc : str_contains KPI_MARK (card_prop_id k) = true).
  { rewrite Eid. cbn [str_contains]. apply orb_true_iff. right.
    apply str_contains_prefix. apply prefix_app. }
  assert (Hs : py_split KPI_MARK (card_prop_id k)
               = "{" :: split_aux KPI_MARK 0 "" (k ++ String "034" tail)).
  { rewrite Eid. unfold py_split.
    change KPI_MARK with (String "034" ("kpi" ++ dquote ++ ":" ++ dquote)).
    cbn [split_aux]. rewrite prefix_head_differs by reflexivity.
    apply split_aux_at_sep. }
  destruct (split_aux_quote_free "034"%char ("kpi" ++ dquote ++ ":" ++ dquote)
              "" k tail Hk) as (y & l & Hy & Hshape).
  change (String "034" ("kpi" ++ dquote ++ ":" ++ dquote)) with KPI_MARK in Hy.
  change ("" ++ k ++ y) with (k ++ y) in Hy.
  destruct (split_char_quote_free "034"%char "" k y Hk Hshape) as [l' Hl'].
  change ("" ++ k) with k in Hl'.
  unfold kpi_click. rewrite Hc, Hs, Hy.
  cbn [index lookup list_lookup rbind].
  unfold py_split, dquote. rewrite Hl'.
  reflexivity.
Qed.

(** ** The short form of a count just below a million *)

(** X14.  With binary64 arithmetic, [fmt_int] shows every count from 999950
    to 999999 as 1000.0K: the count is below a million, so the K branch is
    taken, and its quotient by 1000 rounds up to 1000.0 at one decimal. *)
Theorem fmt_int_rolls_over_below_a_million (n : Z) :
  999950 <= n < 1000000 -> fmt_int binary64 n = "1000.0K".
Proof.
  intros H.
  assert (Hall : forallb
            (fun k : nat =>
               String.eqb (fmt_int binary64 (999950 + Z.of_nat k)) "1000.0K")
            (seq 0 50) = true) by (vm_compute; reflexivity).
  rewrite forallb_forall in Hall.
  specialize (Hall (Z.to_nat (n - 999950))).
  rewrite Z2Nat.id in Hall by lia.
  replace (999950 + (n - 999950)) with n in Hall by lia.
  apply String.eqb_eq. apply Hall. apply in_seq. lia.
Qed.

(** ** The three months of the history *)

Lemma digit_char_inj (a b : Z) :
  0 <= a < 10 -> 0 <= b < 10 -> digit_char a = digit_char b -> a = b.
Proof.
  intros Ha Hb H. unfold digit_char in H.
  apply (f_equal nat_of_ascii) in H.
  rewrite !nat_ascii_embedding in H by lia. lia.
Qed.

(** Equal digit strings come from numbers that agree on their [k] low
    digits. *)
Lemma frac_digits_inj (k : nat) (a b : Z) :
  frac_digits k a = frac_digits k b ->
  a mod 10 ^ Z.of_nat k = b mod 10 ^ Z.of_nat k.
Proof.
  induction k as [|k IH]; intros H.
  - change (10 ^ Z.of_nat 0) with 1. rewrite !Z.mod_1_r. reflexivity.
  - cbn [frac_digits] in H. injection H as Hd Ht.
    specialize (IH Ht).
    apply digit_char_inj in Hd; try (apply Z.mod_pos_bound; lia).
    rewrite Nat2Z.inj_succ, Z.pow_succ_r by lia.
    assert (Hp : 0 < 10 ^ Z.of_nat k) by (apply Z.pow_pos_nonneg; lia).
    rewrite (Z.mul_comm 10).
    rewrite !Z.rem_mul_r by lia.
    rewrite IH, Hd. reflexivity.
Qed.

Lemma string_app_inj (a a' b b' : string) :
  String.length a = String.length a' -> a ++ b = a' ++ b' -> a = a' /\ b = b'.
Proof.
  revert a'. induction a as [|c a IH]; intros [|c' a'] Hlen H;
    try discriminate Hlen.
  - split; [reflexivity | exact H].
  - change (String c (a ++ b) = String c' (a' ++ b')) in H.
    injection H as -> H. injection Hlen as Hlen.
    destruct (IH a' Hlen H) as [-> ->]. split; reflexivity.
Qed.

(** Two dates with four-digit years and the same label are in the same
    month of the same year. *)
Lemma strftime_Ym_inj (d d' : date) :
  0 <= dt_year d < 10000 -> 0 <= dt_year d' < 10000 ->
  1 <= dt_month d <= 12 -> 1 <= dt_month d' <= 12 ->
  strftime_Ym d = strftime_Ym d' ->
  dt_year d = dt_year d' /\ dt_month d = dt_month d'.
Proof.
  intros Hy Hy' Hm Hm' H. unfold strftime_Ym in H.
  apply string_app_inj in H as [H1 H2];
    [|rewrite !frac_digits_length; reflexivity].
  apply (string_app_inj "-" "-") in H2 as [_ H2]; [|reflexivity].
  apply frac_digits_inj in H1. apply frac_digits_inj in H2.
  change (10 ^ Z.of_nat 4) with 10000 in H1.
  change (10 ^ Z.of_nat 2) with 100 in H2.
  rewrite !Z.mod_small in H1 by lia.
  rewrite !Z.mod_small in H2 by lia.
  split; assumption.
Qed.

Lemma sub_months_fields (d : date) (k : Z) :
  1 <= dt_month (sub_months d k) <= 12 /\
  dt_day (sub_months d k) = dt_day d /\
  dt_year (sub_months d k) * 12 + (dt_month (sub_months d k) - 1)
  = dt_year d * 12 + (dt_month d - 1) - k.
Proof.
  unfold sub_months, month_ordinal. cbn [dt_year dt_month dt_day].
  set (o := dt_year d * 12 + (dt_month d - 1) - k).
  pose proof (Z.mod_pos_bound o 12 ltac:(lia)).
  pose proof (Z.div_mod o 12 ltac:(lia)).
  repeat split; lia.
Qed.

(** X15.  On a date with a four-digit year, the three months of the
    history are the month of the clock and the two calendar months before
    it, oldest first, whatever the day of the month: each is the first day
    of a month from 1 to 12, the last one is the clock's own month, and
    each of the others is one month before the next, so that in January
    and February the first ones fall in the year before.  The three labels
    are pairwise different. *)
Theorem history_months_consecutive (now : date) :
  1000 < dt_year now <= 9999 -> 1 <= dt_month now <= 12 ->
  exists d2 d1 d0 : date,
    history_months now = [d2; d1; d0]%list /\
    month_labels now = [strftime_Ym d2; strftime_Ym d1; strftime_Ym d0]%list /\
    Forall (fun d : date => 1 <= dt_month d <= 12 /\ dt_day d = 1)
      [d2; d1; d0]%list /\
    (dt_year d0 = dt_year now /\ dt_month d0 = dt_month now) /\
    month_ordinal d1 = month_ordinal d0 - 1 /\
    month_ordinal d2 = month_ordinal d1 - 1 /\
    (dt_month now <= 2 ->
     dt_year d2 = dt_year now - 1 /\ dt_month d2 = dt_month now + 10) /\
    (3 <= dt_month now ->
     dt_year d2 = dt_year now /\ dt_month d2 = dt_month now - 2) /\
    strftime_Ym d2 <> strftime_Ym d1 /\
    strftime_Ym d1 <> strftime_Ym d0 /\
    strftime_Ym d2 <> strftime_Ym d0.
Proof.
  intros Hy Hm.
  set (e := replace_day now 1).
  exists (sub_months e 2), (sub_months e 1), (sub_months e 0).
  destruct (sub_months_fields e 2) as (M2 & D2 & O2).
  destruct (sub_months_fields e 1) as (M1 & D1 & O1).
  destruct (sub_months_fields e 0) as (M0 & D0 & O0).
  change (dt_day e) with 1 in D2, D1, D0.
  change (dt_year e) with (dt_year now) in O2, O1, O0.
  change (dt_month e) with (dt_month now) in O2, O1, O0.
  set (d2 := sub_months e 2) in *. set (d1 := sub_months e 1) in *.
  set (d0 := sub_months e 0) in *.
  assert (Hne : forall a b : date,
             0 <= dt_year a < 10000 -> 0 <= dt_year b < 10000 ->
             1 <= dt_month a <= 12 -> 1 <= dt_month b <= 12 ->
             month_ordinal a <> month_ordinal b ->
             strftime_Ym a <> strftime_Ym b).
  { intros a b Ha Hb Hma Hmb Hab E. apply Hab.
    destruct (strftime_Ym_inj a b Ha Hb Hma Hmb E) as [E1 E2].
    unfold month_ordinal. rewrite E1, E2. reflexivity. }
  split; [reflexivity|]. split; [reflexivity|].
  split; [do 3 (constructor; [split; assumption|]); constructor|].
  unfold month_ordinal.
  split; [lia|]. split; [lia|]. split; [lia|].
  split; [lia|]. split; [lia|].
  repeat split; apply Hne; unfold month_ordinal; lia.
Qed.

(** ** The claims at concrete inputs

    Binary64 rounding, the linear congruential generator and the length hash
    are the runtime; the base counts are a small funnel. *)

Lemma funnel_counts_non_increasing_witness :
  (exists counts : list Z,
      split_by_employees binary64 N lcg_seed lcg_normal
        [1000; 300; 120; 40; 10; 2] 11 !! "Mateo" = Some counts /\
      non_increasing counts) /\
  (exists rows : list MonthlyKpiRow,
      make_3_months_kpis binary64 N lcg_seed lcg_normal (mkdate 2024 1 15)
        [1000; 300; 120; 40; 10; 2] 77 = Ok rows /\
      length rows = 3%nat /\
      forall r : MonthlyKpiRow, In r rows -> non_increasing (stage_counts r)).
Proof.
  destruct (funnel_counts_non_increasing binary64 N lcg_seed lcg_integers lcg_normal)
    as (_ & Hs & Hm & _).
  split.
  - apply Hs. unfold emps. cbn [In]. tauto.
  - apply Hm. reflexivity.
Defined.





Lemma kpi_click_transition_witness :
  step initial_state (ClickKpi [card_prop_id "sql_to_won"])
  = Ok {| employee := "All"; selected_kpi := "sql_to_won";
          tabs := "tab-details" |} /\
  (exists d : Details,
      render_details binary64 N lcg_seed lcg_integers lcg_normal length_hash
        (mkdate 2024 1 15) "ctr" "Mateo" = Ok d /\
      length (det_rows d) = 3%nat /\
      map fst (det_rows d)
      = map strftime_Ym (history_months (mkdate 2024 1 15)) /\
      map month_ordinal (history_months (mkdate 2024 1 15))
      = [month_ordinal (mkdate 2024 1 15) - 2;
         month_ordinal (mkdate 2024 1 15) - 1;
         month_ordinal (mkdate 2024 1 15)]).
Proof.
  destruct (kpi_click_transition binary64 N lcg_seed lcg_integers lcg_normal
              length_hash) as (Hs & _ & _ & Hr).
  split.
  - apply (Hs initial_state "sql_to_won"). unfold KPI_IDS. cbn [In]. tauto.
  - apply Hr.
Defined.


Lemma drift_within_noise_clamp_witness :
  exists noise : Q,
    drift_at binary64 N lcg_seed lcg_normal 5 1
    = fadd binary64 (drift_base binary64 1) noise /\
    (- lit binary64 0.05 <= noise <= lit binary64 0.05)%Q /\
    (fadd binary64 (drift_base binary64 1) (- lit binary64 0.05)
     <= drift_at binary64 N lcg_seed lcg_normal 5 1
     <= fadd binary64 (drift_base binary64 1) (lit binary64 0.05))%Q.
Proof.
  destruct (drift_within_noise_clamp binary64 N lcg_seed lcg_normal
              binary64_rounding_ok) as (_ & Hd & _).
  destruct (Hd 5%N 1%nat) as (noise & E & Hn & Hf & _); [lia|].
  exists noise. repeat split; tauto.
Defined.

Lemma fmt_int_formats_witness :
  fmt_int binary64 2300000
  = fmt_fixed 2 (int_truediv binary64 2300000 1000000) ++ "M" /\
  fmt_int binary64 1500 = fmt_fixed 1 (int_truediv binary64 1500 1000) ++ "K" /\
  fmt_int binary64 999 = str 999.
Proof.
  destruct fmt_int_formats as (Hm & Hk & Hs & _).
  split; [apply (Hm binary64 2300000); lia|].
  split; [apply (Hk binary64 1500); lia|].
  apply (Hs binary64 999). lia.
Defined.

Lemma lcg_integers_range (g : N) (lo hi : Z) :
  lo < hi -> lo <= fst (lcg_integers g lo hi) < hi.
Proof.
  intros H. unfold lcg_integers. cbn [fst].
  pose proof (Z.mod_pos_bound (Z.of_N g) (hi - lo) ltac:(lia)). lia.
Qed.



Lemma data_by_emp_entries_are_funnels_witness :
  is_Some (DATA_BY_EMP binary64 N lcg_seed lcg_integers lcg_normal !! "Mateo").
Proof.
  apply (data_by_emp_entries_are_funnels binary64 N lcg_seed lcg_integers
           lcg_normal length_hash binary64_rounding_ok lcg_integers_range).
  unfold EMPLOYEES. cbn [In]. tauto.
Defined.

(** ** Further properties at concrete inputs *)

Lemma kpi_click_reads_card_id_witness :
  kpi_click [card_prop_id "mql_to_sql"; card_prop_id "ctr"]
  = Ok ("mql_to_sql", "tab-details").
Proof.
  apply (kpi_click_reads_card_id "mql_to_sql" [card_prop_id "ctr"]).
  reflexivity.
Defined.

Lemma overview_rates_within_0_100_witness :
  (exists r : Q, pct_prev binary64 45 1000 = Ok r /\ (0 <= r <= 100)%Q) /\
  (exists ov : Overview,
      update_overview binary64 N lcg_seed lcg_integers lcg_normal "Mateo"
      = Ok ov /\
      forall (i : nat) (p c : Z),
        bar_x (ov_figure ov) !! i = Some p ->
        bar_x (ov_figure ov) !! S i = Some c ->
        exists r : Q, pct_prev binary64 c p = Ok r /\ (0 <= r <= 100)%Q).
Proof.
  destruct (overview_rates_within_0_100 binary64 N lcg_seed lcg_integers
              lcg_normal length_hash binary64_rounding_ok lcg_integers_range)
    as [Hgen Hprog].
  split; [apply Hgen; lia | apply Hprog].
Defined.

Lemma safe_pct_agrees_with_pct_prev_witness :
  exists q r : Q,
    safe_pct binary64 45 1000 = Finite q /\
    pct_prev binary64 45 1000 = Ok r /\
    (q == r)%Q /\ (1000 = 0 -> r = 0%Q).
Proof.
  apply (safe_pct_agrees_with_pct_prev binary64 binary64_rounding_ok 45 1000);
    vm_compute; discriminate.
Defined.

Lemma fmt_int_rolls_over_below_a_million_witness :
  fmt_int binary64 999999 = "1000.0K".
Proof. apply (fmt_int_rolls_over_below_a_million 999999). lia. Defined.

Lemma history_months_consecutive_witness :
  exists d2 d1 d0 : date,
    history_months (mkdate 2026 1 15) = [d2; d1; d0]%list /\
    (dt_year d2 = 2026 - 1 /\ dt_month d2 = 1 + 10) /\
    month_ordinal d1 = month_ordinal d0 - 1 /\
    strftime_Ym d2 <> strftime_Ym d0.
Proof.
  destruct (history_months_consecutive (mkdate 2026 1 15))
    as (d2 & d1 & d0 & Hh & _ & _ & _ & H10 & _ & Hjan & _ & _ & _ & Hne);
    [cbn; lia | cbn; lia |].
  exists d2, d1, d0.
  split; [exact Hh|]. split; [apply Hjan; cbn; lia|].
  split; [exact H10 | exact Hne].
Defined.

Lemma employee_counts_at_most_all_witness :
  exists c all : list Z,
    split_by_employees binary64 N lcg_seed lcg_normal
      [1000; 300; 120; 40; 10; 2] 11 !! "Mateo" = Some c /\
    split_by_employees binary64 N lcg_seed lcg_normal
      [1000; 300; 120; 40; 10; 2] 11 !! "All" = Some all /\
    length c = length all /\
    forall (i : nat) (n a : Z),
      c !! i = Some n -> all !! i = Some a -> 0 <= n <= a.
Proof.
  destruct (split_by_employees binary64 N lcg_seed lcg_normal
              [1000; 300; 120; 40; 10; 2] 11 !! "Mateo") as [c|] eqn:E;
    [|vm_compute in E; discriminate E].
  destruct (employee_counts_at_most_all binary64 N lcg_seed lcg_integers
              lcg_normal binary64_rounding_ok lcg_integers_range)
    as [Hgen _].
  destruct (Hgen [1000; 300; 120; 40; 10; 2] 11%N "Mateo" c) as (all & H).
  - repeat (constructor; [lia|]). constructor.
  - exact E.
  - exists c, all. split; [reflexivity | exact H].
Defined.
